(** * deep-copy: the generator of deep-copy methods, embedded in Rocq

    The development follows the Go package [deepcopy]: the skip lists, the
    method-reuse detector ([hasDeepCopy], [reuseDeepCopy]), the recursive
    walker ([walkType]), the import bookkeeping ([getElemType]), the file
    assembler ([generateFile]), the receiver-name scan ([getReceiverNames])
    and the driver ([Generate]).

    Go values are modelled as follows.
    - [int] is [Z]; the depth counter never gets near the machine bounds,
      since it is bounded by the nesting of the walk.
    - [string] is [string]; the text handled here is ASCII.
    - [map[string]struct{}] is [gset string], [map[string]string] is
      [gmap string string]; the unspecified order in which Go ranges over a
      map is an explicit parameter wherever the code ranges over one.
    - [types.Type] is the inductive [type]; a named type refers to its
      declaration through a type environment, so that mutually recursive
      declarations can be written down.
    - a run-time panic and the exhaustion of the fuel of the walker are
      results of their own, next to a normal return. *)

From Stdlib Require Import ZArith Ascii String List Lia DecimalString Permutation.
From stdpp Require Import base option gmap sets list strings.

Local Open Scope string_scope.
Local Open Scope Z_scope.

(** ** Strings: the functions of [strings], [strconv] and [regexp] in use *)

Module Str.

(** The double quote, written by its code. *)
Definition dquote : string := String (ascii_of_nat 34) EmptyString.
(** Newline and tab of the Go format strings. *)
Definition nl : string := String (ascii_of_nat 10) EmptyString.
Definition tab : string := String (ascii_of_nat 9) EmptyString.

Definition dot : ascii := ascii_of_nat 46.
Definition lbracket : ascii := ascii_of_nat 91.
Definition rbracket : ascii := ascii_of_nat 93.
Definition underscore : ascii := ascii_of_nat 95.

(** [concat] of a list of pieces, the way [fmt.Fprintf] lays them out. *)
Fixpoint cat (l : list string) : string :=
  match l with
  | [] => ""
  | s :: r => s +:+ cat r
  end.

(** [strings.Index(s, ".")] followed by [s[idx+1:]]: the text after the
    first dot, or all of [s] when it has none ([Index] is then -1). *)
Fixpoint afterFirstDot (s : string) : string :=
  match s with
  | EmptyString => ""
  | String c r => if Ascii.eqb c dot then r else afterFirstDot r
  end.

Fixpoint hasDot (s : string) : bool :=
  match s with
  | EmptyString => false
  | String c r => Ascii.eqb c dot || hasDot r
  end.

(** [s[strings.Index(s, ".")+1:]]. *)
Definition dropThroughDot (s : string) : string :=
  if hasDot s then afterFirstDot s else s.

(** [strings.Split(s, ".")]: always at least one piece. *)
Fixpoint splitDotAux (cur : string) (s : string) : list string :=
  match s with
  | EmptyString => [cur]
  | String c r =>
      if Ascii.eqb c dot then cur :: splitDotAux "" r
      else splitDotAux (cur +:+ String c EmptyString) r
  end.
Definition splitDot (s : string) : list string := splitDotAux "" s.

(** [strings.Join(l, sep)]. *)
Fixpoint join (l : list string) (sep : string) : string :=
  match l with
  | [] => ""
  | [s] => s
  | s :: r => s +:+ sep +:+ join r sep
  end.

Fixpoint rev_string (s : string) : string :=
  match s with
  | EmptyString => ""
  | String c r => rev_string r +:+ String c EmptyString
  end.

(** [strings.HasPrefix] and [strings.HasSuffix]. *)
Definition hasPrefix (s p : string) : bool := String.prefix p s.
Definition hasSuffix (s p : string) : bool :=
  String.prefix (rev_string p) (rev_string s).

(** [strings.TrimSuffix(s, suf)]. *)
Definition trimSuffix (s suf : string) : string :=
  if hasSuffix s suf
  then String.substring 0 (String.length s - String.length suf) s
  else s.

(** [strings.ReplaceAll(s, "]", "")]. *)
Fixpoint dropRBrackets (s : string) : string :=
  match s with
  | EmptyString => ""
  | String c r =>
      if Ascii.eqb c rbracket then dropRBrackets r
      else String c (dropRBrackets r)
  end.

(** [strings.Map(f, s)]. *)
Fixpoint map (f : ascii -> ascii) (s : string) : string :=
  match s with
  | EmptyString => ""
  | String c r => String (f c) (map f r)
  end.

(** [strconv.Itoa]. *)
Definition itoa (z : Z) : string := NilZero.string_of_int (Z.to_int z).

(** The class [\w] of [regexp]: ASCII letters, digits and underscore. *)
Definition isWord (c : ascii) : bool :=
  let n := nat_of_ascii c in
  ((48 <=? n) && (n <=? 57) || (65 <=? n) && (n <=? 90)
   || (97 <=? n) && (n <=? 122) || (n =? 95))%nat.

(** [regexp.MustCompile(`\W`).ReplaceAllString(s, "_")]. *)
Definition sanitize (s : string) : string :=
  map (fun c => if isWord c then c else underscore) s.

Fixpoint noNewline (s : string) : bool :=
  match s with
  | EmptyString => true
  | String c r => negb (Ascii.eqb c (ascii_of_nat 10)) && noNewline r
  end.

End Str.

(** ** Types: the part of [go/types] the generator looks at *)

(** [*types.Package]: the import path and the package name. *)
Record Package := mkPackage { Path : string; PkgName : string }.

(** [*types.TypeName], the result of [Obj()]: [Pkg()] is nil for the
    types of the universe. A package-level named type is identified by
    its type name object. *)
Record TypeName := mkTypeName { Pkg : option Package; Name : string }.

Inductive ChanDir := SendRecv | SendOnly | RecvOnly.

(** [types.Type]. [Named] stands for [*types.Named]; its underlying type
    and its methods are found in the type environment, which is how a
    declaration can mention itself or a later one. *)
Inductive type : Type :=
| Basic (name : string)
| Named (obj : TypeName)
| Pointer (elem : type)
| Slice (elem : type)
| Array (len : Z) (elem : type)
| Chan (dir : ChanDir) (elem : type)
| Map (key elem : type)
| Struct (fields : list Var)
with Var : Type :=
| mkVar (name : string) (typ : type) (exported : bool).

(** [*types.Func] with its [*types.Signature]: receiver, parameters and
    results. *)
Record Func := mkFunc {
  FuncName : string;
  Recv : type;
  Params : list type;
  Results : list type
}.

(** What the type checker knows of a named type. *)
Record NamedDecl := mkNamedDecl {
  underlying : type;
  methods : list Func
}.

Definition TypeEnv := TypeName -> NamedDecl.

#[global] Instance Package_eq_dec : EqDecision Package.
Proof. solve_decision. Defined.
#[global] Instance TypeName_eq_dec : EqDecision TypeName.
Proof. solve_decision. Defined.
#[global] Instance ChanDir_eq_dec : EqDecision ChanDir.
Proof. solve_decision. Defined.

(** [types.Identical] on the modelled types: the same shape all the way
    down, named types being identical when they are the same object. *)
Fixpoint Identical (a b : type) {struct a} : bool :=
  match a, b with
  | Basic n, Basic n' => String.eqb n n'
  | Named o, Named o' => bool_decide (o = o')
  | Pointer e, Pointer e' => Identical e e'
  | Slice e, Slice e' => Identical e e'
  | Array n e, Array n' e' => Z.eqb n n' && Identical e e'
  | Chan d e, Chan d' e' => bool_decide (d = d') && Identical e e'
  | Map k e, Map k' e' => Identical k k' && Identical e e'
  | Struct fs, Struct fs' =>
      (fix fields (l l' : list Var) {struct l} : bool :=
         match l, l' with
         | [], [] => true
         | mkVar n t x :: r, mkVar n' t' x' :: r' =>
             String.eqb n n' && Identical t t' && fields r r'
         | _, _ => false
         end) fs fs'
  | _, _ => false
  end.

(** [t.Underlying()]. *)
Definition Underlying (env : TypeEnv) (t : type) : type :=
  match t with
  | Named o => underlying (env o)
  | _ => t
  end.

(** [types.TypeString(t, qf)]. The qualifier is called once for every
    named type of a package, from left to right, and may have an effect on
    a state, which is threaded through. *)
Fixpoint TypeString {S : Type} (qf : Package -> S -> string * S)
    (t : type) (s : S) {struct t} : string * S :=
  match t with
  | Basic n => (n, s)
  | Named o =>
      match Pkg o with
      | Some p =>
          let '(q, s') := qf p s in
          ((if String.eqb q "" then "" else q +:+ ".") +:+ Name o, s')
      | None => (Name o, s)
      end
  | Pointer e => let '(r, s') := TypeString qf e s in ("*" +:+ r, s')
  | Slice e => let '(r, s') := TypeString qf e s in ("[]" +:+ r, s')
  | Array n e =>
      let '(r, s') := TypeString qf e s in
      ("[" +:+ Str.itoa n +:+ "]" +:+ r, s')
  | Chan d e =>
      let parens :=
        match d, e with
        | SendRecv, Chan RecvOnly _ => true
        | _, _ => false
        end in
      let kw :=
        match d with
        | SendRecv => "chan "
        | SendOnly => "chan<- "
        | RecvOnly => "<-chan "
        end in
      let '(r, s') := TypeString qf e s in
      (kw +:+ (if parens then "(" +:+ r +:+ ")" else r), s')
  | Map k e =>
      let '(rk, s1) := TypeString qf k s in
      let '(re, s2) := TypeString qf e s1 in
      ("map[" +:+ rk +:+ "]" +:+ re, s2)
  | Struct fs =>
      let '(r, s') :=
        (fix fields (first : bool) (l : list Var) (s : S) {struct l}
           : string * S :=
           match l with
           | [] => ("", s)
           | mkVar n ty _ :: rest =>
               let '(rt, s1) := TypeString qf ty s in
               let '(rr, s2) := fields false rest s1 in
               ((if first then "" else "; ") +:+ n +:+ " " +:+ rt +:+ rr, s2)
           end) true fs s in
      ("struct{" +:+ r +:+ "}", s')
  end.

(** The nil qualifier: every package is written by its path. This is the
    [String()] of a type, which [%s] prints. *)
Definition typeToString (t : type) : string :=
  fst (TypeString (fun p (_ : unit) => (Path p, tt)) t tt).

(** ** Results and effects *)

(** A Go call returns, panics, or (in the model only) runs out of fuel. *)
Inductive res (A : Type) : Type :=
| Ok (a : A)
| Panic (msg : string)
| OutOfFuel.
Arguments Ok {A} a.
Arguments Panic {A} msg.
Arguments OutOfFuel {A}.

(** What is printed on the side: the warning of [log.Printf] and the
    lines of [fmt.Printf] on the standard output. *)
Inductive Event :=
| Warning (msg : string)
| PrintedReceivers (names : option (gmap string string))
| PrintedReceiverName (kind name : string).

(** The store the generator works on: the map behind [g.imports], which
    every copy of the generator value shares, and the events so far. *)
Record Store := mkStore {
  imports : gmap string string;
  events : list Event
}.

Definition M (A : Type) : Type := Store -> res (A * Store).

Definition ret {A} (a : A) : M A := fun s => Ok (a, s).
Definition bind {A B} (m : M A) (k : A -> M B) : M B :=
  fun s =>
    match m s with
    | Ok (a, s') => k a s'
    | Panic msg => Panic msg
    | OutOfFuel => OutOfFuel
    end.
Definition panic {A} (msg : string) : M A := fun _ => Panic msg.
Definition outOfFuel {A} : M A := fun _ => OutOfFuel.
Definition logPrintf (msg : string) : M unit :=
  fun s => Ok (tt, mkStore (imports s) (events s ++ [Warning msg])).
Definition printf (e : Event) : M unit :=
  fun s => Ok (tt, mkStore (imports s) (events s ++ [e])).

Declare Scope go_scope.
Delimit Scope go_scope with go.
Notation "x <- c1 ;; c2" := (bind c1 (fun x => c2))
  (at level 100, c1 at next level, right associativity) : go_scope.

Local Open Scope go_scope.

(** ** The generator *)

(** [type skips map[string]struct{}] and [Contains]. *)
Abbreviation skips := (gset string) (only parsing).

Definition Contains (s : skips) (sel : string) : bool :=
  bool_decide (sel ∈ s).

(** [type SkipLists []map[string]struct{}] and [Get]: the zero value of
    [skips] is the nil map, which has no element; indexing outside of the
    list panics. *)
Abbreviation SkipLists := (list (gset string)) (only parsing).

Definition Get (l : SkipLists) (i : Z) : res skips :=
  if i <? Z.of_nat (length l) then
    if i <? 0 then Panic "index out of range"
    else match l !! Z.to_nat i with
         | Some s => Ok s
         | None => Panic "index out of range"
         end
  else Ok ∅.

(** [type Generator struct]. The field [imports] holds a reference to a
    map; the map itself is the [imports] of the [Store]. *)
Record Generator := mkGenerator {
  isPtrRecv : bool;
  maxDepth : Z;
  methodName : string;
  skipLists : SkipLists;
  fns : list string;
  receiverNames : option (gmap string string)
}.

Definition NewGenerator (isPtrRecv : bool) (methodName : string)
    (skipLists : SkipLists) (maxDepth : Z) : Generator * Store :=
  ({| isPtrRecv := isPtrRecv; methodName := methodName;
      maxDepth := maxDepth; skipLists := skipLists;
      fns := []; receiverNames := None |},
   mkStore ∅ []).

(** The interfaces [object] and [methoder]: among the modelled types the
    named types implement both, and a value of either interface is given
    by the type name. *)
Abbreviation object := TypeName (only parsing).

Definition asMethoder (t : type) : option TypeName :=
  match t with
  | Named o => Some o
  | _ => None
  end.

Definition asObject (t : type) : option object :=
  match t with
  | Named o => Some o
  | _ => None
  end.

(** [reducePointer]: the interface [pointer] asks for the method
    [Elem()] alone, which the pointer, slice, array, channel and map types
    of [go/types] all have; each of them is reduced to its element type. *)
Definition reducePointer (typ : type) : type * bool :=
  match typ with
  | Pointer e => (e, true)
  | Slice e => (e, true)
  | Array _ e => (e, true)
  | Chan _ e => (e, true)
  | Map _ e => (e, true)
  | _ => (typ, false)
  end.

(** [objFromType]. *)
Definition objFromType (typ : type) : option object :=
  asObject (fst (reducePointer typ)).

(** [exprFilter]. *)
Definition exprFilter (t : type) (sel x : string) : option object :=
  match objFromType t with
  | None => None
  | Some obj =>
      match Pkg obj with
      | None => None
      | Some p =>
          if negb (String.eqb x (PkgName p)) || negb (String.eqb sel (Name obj))
          then None
          else Some obj
      end
  end.

(** [selToIdent]. *)
Definition selToIdent (sel : string) : string :=
  Str.map (fun r => if Ascii.eqb r Str.lbracket || Ascii.eqb r Str.dot
                    then Str.underscore else r)
          (Str.dropRBrackets sel).

Section Walker.

Variable env : TypeEnv.
Variable g : Generator.

(** The qualifier of [getElemType]: a foreign package is written by its
    name, or by its sanitized path when the name is taken by another
    path, and the choice is recorded in the import table. *)
Definition qualifier (x : string) (p : Package)
    (imps : gmap string string) : string * gmap string string :=
  let name := PkgName p in
  if negb (String.eqb name x) then
    let name :=
      match imps !! name with
      | Some path =>
          if negb (String.eqb path (Path p)) then Str.sanitize (Path p)
          else name
      | None => name
      end in
    (name, <[name := Path p]> imps)
  else ("", imps).

(** [getElemType]. *)
Definition getElemType (t : type) (x : string) : M string :=
  fun s =>
    let '(kind, imps) := TypeString (qualifier x) t (imports s) in
    Ok (kind, mkStore imps (events s)).

(** The method scan of [hasDeepCopy], from method [i] on. A method of
    the model always has a signature. *)
Fixpoint scanMethods (ms : list Func) : bool * bool :=
  match ms with
  | [] => (false, false)
  | m :: rest =>
      if negb (String.eqb (FuncName m) (methodName g)) then scanMethods rest
      else if negb (length (Params m) =? 0)%nat
              || negb (length (Results m) =? 1)%nat
      then scanMethods rest
      else
        match Results m with
        | [] => scanMethods rest
        | ret :: _ =>
            let '(retType, retPointer) := reducePointer ret in
            let '(sigType, _) := reducePointer (Recv m) in
            if negb (Identical retType sigType) then (false, false)
            else (true, retPointer)
        end
  end.

(** [hasDeepCopy]. *)
Definition hasDeepCopy (v : TypeName) (generating : list object)
    : bool * bool :=
  if existsb (fun t => Identical (Named v) (Named t)) generating
  then (true, isPtrRecv g)
  else scanMethods (methods (env v)).

(** [reuseDeepCopy]: the text written to [w] and the result. *)
Definition reuseDeepCopy (source sink : string) (v : TypeName)
    (pointer : bool) (generating : list object) : string * bool :=
  let '(hasMethod, isPointer) := hasDeepCopy v generating in
  if hasMethod then
    if Bool.eqb pointer isPointer then
      (Str.cat [sink; " = "; source; "."; methodName g; "()"; Str.nl], true)
    else if pointer then
      (Str.cat ["retV := "; source; "."; methodName g; "()"; Str.nl;
                Str.tab; sink; " = &retV"; Str.nl], true)
    else
      (Str.cat ["{"; Str.nl;
                Str.tab; "retV := "; source; "."; methodName g; "()"; Str.nl;
                Str.tab; sink; " = *retV"; Str.nl;
                "}"; Str.nl], true)
  else ("", false).

(** The depth cutoff of [walkType]: the warning names the first
    generated type and the sink path without its first and last
    component. *)
Definition cutoff (sink : string) (generating : list object) (depth : Z)
    : M string :=
  let p := Str.splitDot sink in
  match generating with
  | [] => panic "index out of range [0] with length 0"
  | t0 :: _ =>
      if (length p <? 2)%nat then panic "slice bounds out of range [1:0]"
      else
        let stoppedAt :=
          Str.trimSuffix
            (Str.cat [typeToString (Named t0); ".";
                      Str.join (take (length p - 2) (drop 1 p)) "."])
            "." in
        _ <- logPrintf (Str.cat ["WARNING: reached max depth ";
                                 Str.itoa depth;
                                 ". stop recursion at "; stoppedAt]) ;;
        ret ""
  end.

(** The type of [walkType] without its writer: the text written to [w]
    is the result. *)
Definition walker : Type :=
  string -> string -> string -> option type -> skips -> list object -> Z
  -> M string.

Section Step.

(** The recursive calls of [walkType] go to [self]. *)
Variable self : walker.

(** [case *types.Struct]. *)
Fixpoint walkFields (source sink x : string) (needExported : bool)
    (fields : list Var) (sk : skips) (generating : list object)
    (depth : Z) : M string :=
  match fields with
  | [] => ret ""
  | mkVar fname ftype fexported :: rest =>
      out <- (if needExported && negb fexported then ret ""
              else
                let sel := Str.dropThroughDot (sink +:+ "." +:+ fname) in
                if bool_decide (sel ∈ sk) then ret ""
                else self (source +:+ "." +:+ fname)
                          (sink +:+ "." +:+ fname)
                          x (Some ftype) sk generating depth) ;;
      outs <- walkFields source sink x needExported rest sk generating
                depth ;;
      ret (out +:+ outs)
  end.

(** [case *types.Slice]. *)
Definition walkSlice (source sink x : string) (elem : type) (sk : skips)
    (generating : list object) (depth : Z) (initial : bool) : M string :=
  kind <- getElemType elem x ;;
  let idx := if 1 <? depth then "i" +:+ Str.itoa depth else "i" in
  let sel := Str.dropThroughDot "[i]" in
  let sel := if negb initial then sink +:+ sel else sel in
  let skipSlice := Contains sk sel in
  let w1 := Str.cat ["if "; source; " != nil {"; Str.nl;
                     Str.tab; sink; " = make([]"; kind; ", len("; source;
                     "))"; Str.nl] in
  let w2 := Str.cat ["copy("; sink; ", "; source; ")"; Str.nl] in
  b <- (if negb skipSlice then
          let baseSel := "[" +:+ idx +:+ "]" in
          self (source +:+ baseSel) (sink +:+ baseSel) x (Some elem) sk
               generating depth
        else ret "") ;;
  let w3 := if (0 <? String.length b)%nat then
              Str.cat ["    for "; idx; " := range "; source; " {"; Str.nl;
                       b; "}"; Str.nl]
            else "" in
  ret (Str.cat [w1; w2; w3; "}"; Str.nl]).

(** [case *types.Pointer]. *)
Definition walkPointer (source sink x : string) (elem : type) (sk : skips)
    (generating : list object) (depth : Z) (initial : bool) : M string :=
  let w1 := Str.cat ["if "; source; " != nil {"; Str.nl] in
  let '(w2, reused) :=
    match asMethoder elem with
    | Some e =>
        if initial then ("", false)
        else reuseDeepCopy source sink e true generating
    | None => ("", false)
    end in
  w3 <- (if negb reused then
           kind <- getElemType elem x ;;
           inner <- self source sink x (Some elem) sk generating depth ;;
           ret (Str.cat [sink; " = new("; kind; ")"; Str.nl;
                         Str.tab; "*"; sink; " = *"; source; Str.nl;
                         inner])
         else ret "") ;;
  ret (Str.cat [w1; w2; w3; "}"; Str.nl]).

(** [case *types.Chan]. *)
Definition walkChan (source sink x : string) (elem : type) : M string :=
  kind <- getElemType elem x ;;
  ret (Str.cat ["if "; source; " != nil {"; Str.nl;
                Str.tab; sink; " = make(chan "; kind; ", cap("; source;
                "))"; Str.nl;
                "}"; Str.nl]).

(** The two skip flags of [case *types.Map], set from the selector. *)
Definition mapSkips (sk : skips) (sel : string) : bool * bool :=
  if Contains sk sel then (true, true) else (false, false).

(** [case *types.Map]. *)
Definition walkMap (source sink x : string) (tkey telem : type)
    (sk : skips) (generating : list object) (depth : Z) (initial : bool)
    : M string :=
  kkind <- getElemType tkey x ;;
  vkind <- getElemType telem x ;;
  let key := if 1 <? depth then "k" +:+ Str.itoa depth else "k" in
  let val := if 1 <? depth then "v" +:+ Str.itoa depth else "v" in
  let sel := "[k]" in
  let sel := if negb initial then sink +:+ sel else sel in
  let sel := Str.dropThroughDot sel in
  let '(skipKey, skipValue) := mapSkips sk sel in
  let w1 := Str.cat ["if "; source; " != nil {"; Str.nl;
                     Str.tab; sink; " = make(map["; kkind; "]"; vkind;
                     ", len("; source; "))"; Str.nl;
                     Str.tab; "for "; key; ", "; val; " := range ";
                     source; " {"; Str.nl] in
  kres <- (if negb skipKey then
             let copyKSink := selToIdent sink +:+ "_" +:+ key in
             b <- self key copyKSink x (Some tkey) sk generating depth ;;
             if (0 <? String.length b)%nat then
               ret (copyKSink,
                    Str.cat ["var "; copyKSink; " "; kkind; Str.nl; b])
             else ret (key, "")
           else ret (key, "")) ;;
  vres <- (if negb skipValue then
             let copyVSink := selToIdent sink +:+ "_" +:+ val in
             b <- self val copyVSink x (Some telem) sk generating depth ;;
             if (0 <? String.length b)%nat then
               ret (copyVSink,
                    Str.cat ["var "; copyVSink; " "; vkind; Str.nl; b])
             else ret (val, "")
           else ret (val, "")) ;;
  let '(ksink, w2) := kres in
  let '(vsink, w3) := vres in
  ret (Str.cat [w1; w2; w3; sink; "["; ksink; "] = "; vsink;
                "}"; Str.nl; "}"; Str.nl]).

(** The switch on the underlying type. *)
Definition walkShape (source sink x : string) (under : type)
    (needExported : bool) (sk : skips) (generating : list object)
    (depth : Z) (initial : bool) : M string :=
  match under with
  | Struct fields =>
      walkFields source sink x needExported fields sk generating depth
  | Slice elem => walkSlice source sink x elem sk generating depth initial
  | Pointer elem =>
      walkPointer source sink x elem sk generating depth initial
  | Chan _ elem => walkChan source sink x elem
  | Map tkey telem =>
      walkMap source sink x tkey telem sk generating depth initial
  | _ => ret ""
  end.

(** The body of [walkType]. *)
Definition walkStep : walker :=
  fun source sink x m sk generating depth =>
    let initial := depth =? 0 in
    match m with
    | None => ret ""
    | Some m =>
        if (0 <? maxDepth g) && (maxDepth g <=? depth)
        then cutoff sink generating depth
        else
          let needExported :=
            match m with
            | Named v =>
                match Pkg v with
                | Some p => negb (String.eqb (PkgName p) x)
                | None => false
                end
            | _ => false
            end in
          let '(w1, reused) :=
            match asMethoder m with
            | Some v =>
                if negb initial
                then reuseDeepCopy source sink v false generating
                else ("", false)
            | None => ("", false)
            end in
          if reused then ret w1
          else
            let depth := depth + 1 in
            let under := Underlying env m in
            w2 <- walkShape source sink x under needExported sk generating
                    depth initial ;;
            ret (w1 +:+ w2)
    end.

End Step.

(** [walkType]: the fuel bounds the nesting of the calls. *)
Fixpoint walkType (fuel : nat) : walker :=
  match fuel with
  | O => fun _ _ _ _ _ _ _ => outOfFuel
  | S fuel' => walkStep (walkType fuel')
  end.

End Walker.

(** ** The package under generation and the receiver names *)

(** [ast.Expr], as far as a receiver type goes. *)
Inductive Expr :=
| Ident (name : string)
| StarExpr (x : Expr)
| OtherExpr.

(** [*ast.Field]: the names and the type of a receiver. *)
Record Field := mkField { Names : list string; FieldType : Expr }.

(** A top-level declaration: [*ast.FuncDecl] with its optional receiver
    list, or another declaration. *)
Inductive Decl :=
| FuncDecl (recv : option (list Field))
| GenDecl.

(** [*ast.File]: the text of every comment, group by group, and the
    declarations. *)
Record File := mkFile { Comments : list (list string); Decls : list Decl }.

(** [*packages.Package]: the name, the types of the objects of
    [TypesInfo.Defs] in the order the run ranges over that map (a nil
    object is [None]), and the syntax trees. *)
Record PackageInfo := mkPackageInfo {
  pName : string;
  Defs : list (option type);
  Syntax : list File
}.

(** [patAutoGen], the expression [^// Code generated .* DO NOT EDIT\.$]. *)
Definition patAutoGen (text : string) : bool :=
  let pre := "// Code generated " in
  let suf := " DO NOT EDIT." in
  Str.hasPrefix text pre
  && Str.hasSuffix text suf
  && (String.length pre + String.length suf <=? String.length text)%nat
  && Str.noNewline
       (String.substring (String.length pre)
          (String.length text - String.length pre - String.length suf) text).

(** [isCodeGenerated]. *)
Definition isCodeGenerated (f : File) : bool :=
  existsb (fun c => existsb patAutoGen c) (Comments f).

(** [recvVarVisitor.add]: the first name found is kept. *)
Definition add (vars : option (gmap string string)) (key name : string)
    : option (gmap string string) :=
  let vars := match vars with Some m => m | None => ∅ end in
  match vars !! key with
  | Some _ => Some vars
  | None => Some (<[key := name]> vars)
  end.

(** [recvVarVisitor.Visit] at a function declaration. *)
Definition visitFuncDecl (vars : option (gmap string string)) (d : Decl)
    : res (option (gmap string string)) :=
  match d with
  | GenDecl => Ok vars
  | FuncDecl None => Ok vars
  | FuncDecl (Some l) =>
      match l with
      | [] => Panic "index out of range [0] with length 0"
      | fld :: _ =>
          let expr :=
            match FieldType fld with
            | StarExpr x => x
            | e => e
            end in
          match expr with
          | Ident typ =>
              match Names fld with
              | [] => Panic "index out of range [0] with length 0"
              | varName :: _ => Ok (add vars typ varName)
              end
          | _ => Ok vars
          end
      end
  end.

(** [ast.Walk] with the visitor: a generated file is not entered; in any
    other file the visitor acts on the function declarations, which are
    the only nodes it does not turn away. *)
Fixpoint visitDecls (vars : option (gmap string string)) (ds : list Decl)
    : res (option (gmap string string)) :=
  match ds with
  | [] => Ok vars
  | d :: rest =>
      match visitFuncDecl vars d with
      | Ok vars' => visitDecls vars' rest
      | Panic msg => Panic msg
      | OutOfFuel => OutOfFuel
      end
  end.

Definition visitFile (vars : option (gmap string string)) (f : File)
    : res (option (gmap string string)) :=
  if isCodeGenerated f then Ok vars else visitDecls vars (Decls f).

Fixpoint visitFiles (vars : option (gmap string string)) (fs : list File)
    : res (option (gmap string string)) :=
  match fs with
  | [] => Ok vars
  | f :: rest =>
      match visitFile vars f with
      | Ok vars' => visitFiles vars' rest
      | Panic msg => Panic msg
      | OutOfFuel => OutOfFuel
      end
  end.

(** [getReceiverNames]: the table, or the error. *)
Definition getReceiverNames (pkg : PackageInfo)
    : res (option (gmap string string) + string) :=
  match Syntax pkg with
  | [] => Ok (inr "packages.Package has no Syntax.")
  | fs =>
      match visitFiles None fs with
      | Ok vars => Ok (inl vars)
      | Panic msg => Panic msg
      | OutOfFuel => OutOfFuel
      end
  end.

(** [locateType]: the first definition, in ranging order, whose type
    passes the filter. *)
Fixpoint locateDefs (defs : list (option type)) (kind x : string)
    : object + string :=
  match defs with
  | [] => inr "type not found"
  | None :: rest => locateDefs rest kind x
  | Some t :: rest =>
      match exprFilter t kind x with
      | None => locateDefs rest kind x
      | Some m => inl m
      end
  end.

Definition locateType (kind : string) (p : PackageInfo) : object + string :=
  locateDefs (Defs p) kind (pName p).

(** ** The driver *)

(** What the generator gets from outside: the formatter [format.Source]
    (the formatted text, or its diagnostic), the verb [%q] of [fmt], the
    command line [os.Args], the order in which the run ranges over the
    import table, and the error, if any, of the destination writer. *)
Record Externals := mkExternals {
  formatSource : string -> string + string;
  quote : string -> string;
  osArgs : list string;
  rangeImports : gmap string string -> list (string * string);
  writeError : string -> option string
}.

Section Driver.

Variable env : TypeEnv.
Variable ext : Externals.

(** [generateFunc]. *)
Definition generateFunc (fuel : nat) (g : Generator) (p : PackageInfo)
    (obj : object) (sk : skips) (generating : list object) : M string :=
  let ptr := if isPtrRecv g then "*" else "" in
  let kind := Name obj in
  let named :=
    match receiverNames g with
    | Some names =>
        match names !! kind with
        | Some n => if String.eqb n "" then None else Some n
        | None => None
        end
    | None => None
    end in
  source <- match named with
            | Some n => _ <- printf (PrintedReceiverName kind n) ;; ret n
            | None => ret "o"
            end ;;
  let head :=
    Str.cat ["// "; methodName g; " generates a deep copy of "; ptr; kind;
             Str.nl;
             "func ("; source; " "; ptr; kind; ") "; methodName g; "() ";
             ptr; kind; " {"; Str.nl;
             Str.tab; "var cp "; kind; " = "; ptr; source; Str.nl] in
  body <- walkType env g fuel source "cp" (pName p) (Some (Named obj)) sk
            generating 0 ;;
  ret (Str.cat [head; body;
                if isPtrRecv g then "return &cp" +:+ Str.nl +:+ "}"
                else "return cp" +:+ Str.nl +:+ "}"]).

(** The lines of the import block, one for every entry ranged over. *)
Definition importLine (e : string * string) : string :=
  let '(name, path) := e in
  if Str.hasSuffix path name then quote ext path +:+ Str.nl
  else Str.cat [name; " "; quote ext path; Str.nl].

Definition importBlock (entries : list (string * string)) : string :=
  Str.cat ["import ("; Str.nl; Str.cat (map importLine entries);
           ")"; Str.nl].

(** The text [generateFile] hands to the formatter: the header, the
    import block when the table is not empty, and the functions. *)
Definition fileHeader (p : PackageInfo) : string :=
  Str.cat ["// Code generated by "; Str.join (osArgs ext) " ";
           "; DO NOT EDIT."; Str.nl; Str.nl;
           "package "; pName p; Str.nl; Str.nl].

Definition fnsText (g : Generator) : string :=
  Str.cat (map (fun fn => fn +:+ Str.nl +:+ Str.nl) (fns g)).

Definition fileText (g : Generator) (p : PackageInfo)
    (imps : gmap string string) : string :=
  Str.cat [fileHeader p;
           if (0 <? size imps)%nat then importBlock (rangeImports ext imps)
           else "";
           fnsText g].

(** [generateFile]: what is written to [w], and the error. *)
Definition generateFile (g : Generator) (p : PackageInfo)
    : M (list string * option string) :=
  fun s =>
    let file := fileText g p (imports s) in
    match formatSource ext file with
    | inr err =>
        Ok (([], Some (Str.cat ["error formatting source: "; err; Str.nl;
                                "source:"; Str.nl; file])), s)
    | inl b => Ok (([b], writeError ext b), s)
    end.

(** The first loop of [Generate]. *)
Fixpoint locateAll (types : list string) (p : PackageInfo)
    : list object + string :=
  match types with
  | [] => inl []
  | kind :: rest =>
      match locateType kind p with
      | inr err =>
          inr (Str.cat ["locating type "; quote ext kind; " in ";
                        quote ext (pName p); ": "; err])
      | inl obj =>
          match locateAll rest p with
          | inr err => inr err
          | inl objs => inl (obj :: objs)
          end
      end
  end.

(** The second loop of [Generate], from index [i] on; [generateFunc]
    has no error to return. *)
Fixpoint generateAll (fuel : nat) (g : Generator) (p : PackageInfo)
    (i : Z) (todo : list object) (objs : list object) : M Generator :=
  match todo with
  | [] => ret g
  | obj :: rest =>
      sk <- (fun s => match Get (skipLists g) i with
                      | Ok sk => Ok (sk, s)
                      | Panic msg => Panic msg
                      | OutOfFuel => OutOfFuel
                      end) ;;
      fn <- generateFunc fuel g p obj sk objs ;;
      let g := {| isPtrRecv := isPtrRecv g; maxDepth := maxDepth g;
                  methodName := methodName g; skipLists := skipLists g;
                  fns := fns g ++ [fn];
                  receiverNames := receiverNames g |} in
      generateAll fuel g p (i + 1) rest objs
  end.

(** [Generate]: what is written to [w], and the error returned. *)
Definition Generate (fuel : nat) (g : Generator) (types : list string)
    (p : PackageInfo) : M (list string * option string) :=
  match locateAll types p with
  | inr err => ret ([], Some err)
  | inl objs =>
      names <- (fun s => match getReceiverNames p with
                         | Ok r => Ok (r, s)
                         | Panic msg => Panic msg
                         | OutOfFuel => OutOfFuel
                         end) ;;
      match names with
      | inr err => ret ([], Some ("getting receiver names: " +:+ err))
      | inl names =>
          let g := {| isPtrRecv := isPtrRecv g; maxDepth := maxDepth g;
                      methodName := methodName g; skipLists := skipLists g;
                      fns := fns g; receiverNames := names |} in
          _ <- printf (PrintedReceivers names) ;;
          g <- generateAll fuel g p 0 objs objs ;;
          r <- generateFile g p ;;
          match r with
          | (written, Some err) =>
              ret (written, Some ("generating file content: " +:+ err))
          | (written, None) => ret (written, None)
          end
      end
  end.

End Driver.

(** ** The detector as the specification words it *)

(** Stripping at most one pointer indirection. *)
Definition stripPointer (typ : type) : type * bool :=
  match typ with
  | Pointer e => (e, true)
  | _ => (typ, false)
  end.

(** A type that is not a slice, an array, a channel or a map: on such a
    type [reducePointer] strips a pointer and nothing else. *)
Definition pointerShaped (typ : type) : bool :=
  match typ with
  | Slice _ | Array _ _ | Chan _ _ | Map _ _ => false
  | _ => true
  end.

(** A method whose receiver and results are so shaped. *)
Definition plainMethod (m : Func) : bool :=
  pointerShaped (Recv m) && forallb pointerShaped (Results m).

(** In the words of the specification: the result type and the receiver
    type agree once at most one pointer indirection is stripped from each,
    and the result is a pointer. *)
Definition specSelfReturning (m : Func) : bool :=
  match Results m with
  | ret :: _ =>
      Identical (fst (stripPointer ret)) (fst (stripPointer (Recv m)))
  | [] => false
  end.

Definition specResultIsPointer (m : Func) : bool :=
  match Results m with
  | ret :: _ => snd (stripPointer ret)
  | [] => false
  end.

Section Detector.

Variable env : TypeEnv.
Variable g : Generator.

(** A method of the configured name with no parameter and one result. *)
Definition candidate (m : Func) : bool :=
  String.eqb (FuncName m) (methodName g)
  && (length (Params m) =? 0)%nat
  && (length (Results m) =? 1)%nat.

(** The test of [hasDeepCopy] on the result: the result type and the
    receiver type agree once [reducePointer] is applied to each. *)
Definition selfReturning (m : Func) : bool :=
  match Results m with
  | ret :: _ =>
      Identical (fst (reducePointer ret)) (fst (reducePointer (Recv m)))
  | [] => false
  end.

Definition signatureMatches (m : Func) : bool :=
  candidate m && specSelfReturning m.

Definition resultIsPointer (m : Func) : bool :=
  match Results m with
  | ret :: _ => snd (reducePointer ret)
  | [] => false
  end.

(** The detector of the specification: a member of the generating set
    is found with the receiver shape of the batch; otherwise the first
    method whose signature matches counts, the search going on past any
    method that does not match. *)
Definition detectSpec (v : TypeName) (generating : list object)
    : bool * bool :=
  if existsb (fun t => Identical (Named v) (Named t)) generating
  then (true, isPtrRecv g)
  else
    match find signatureMatches (methods (env v)) with
    | Some m => (true, specResultIsPointer m)
    | None => (false, false)
    end.

(** The call written by a reuse, for the shape the call site wants
    ([pointer]) and the shape the operation returns ([isPointer]). *)
Definition callText (source sink : string) (pointer isPointer : bool)
    : string :=
  if Bool.eqb pointer isPointer then
    Str.cat [sink; " = "; source; "."; methodName g; "()"; Str.nl]
  else if pointer then
    Str.cat ["retV := "; source; "."; methodName g; "()"; Str.nl;
             Str.tab; sink; " = &retV"; Str.nl]
  else
    Str.cat ["{"; Str.nl;
             Str.tab; "retV := "; source; "."; methodName g; "()"; Str.nl;
             Str.tab; sink; " = *retV"; Str.nl;
             "}"; Str.nl].

(** Whether [walkType] stops at the depth cutoff. *)
Definition cutoffApplies (depth : Z) : bool :=
  (0 <? maxDepth g) && (maxDepth g <=? depth).

(** The flag [needExported] of [walkType]. *)
Definition needsExported (m : type) (x : string) : bool :=
  match m with
  | Named v =>
      match Pkg v with
      | Some p => negb (String.eqb (PkgName p) x)
      | None => false
      end
  | _ => false
  end.

End Detector.


(** The text of the insertion loop of a map, up to the body of the loop. *)
Definition mapHead (source sink kkind vkind key val : string) : string :=
  Str.cat ["if "; source; " != nil {"; Str.nl;
           Str.tab; sink; " = make(map["; kkind; "]"; vkind;
           ", len("; source; "))"; Str.nl;
           Str.tab; "for "; key; ", "; val; " := range "; source; " {";
           Str.nl].

(** The names of the loop variables of a map at a depth. *)
Definition mapKey (depth : Z) : string :=
  if 1 <? depth then "k" +:+ Str.itoa depth else "k".
Definition mapVal (depth : Z) : string :=
  if 1 <? depth then "v" +:+ Str.itoa depth else "v".

(** The selector [walkType] looks up for a map. *)
Definition mapSel (sink : string) (initial : bool) : string :=
  Str.dropThroughDot (if negb initial then sink +:+ "[k]" else "[k]").

(** A computation that does not run out of fuel, whatever the store. *)
Definition fuelled {A} (m : M A) : Prop := forall s, m s <> OutOfFuel.

(** A computation that gives what another gives, wherever it does not
    run out of fuel itself. *)
Definition below {A} (m1 m2 : M A) : Prop :=
  forall s, m1 s <> OutOfFuel -> m1 s = m2 s.

(** All the objects the filter of [locateType] lets pass, whatever the
    order of the definitions. *)
Fixpoint located (defs : list (option type)) (kind x : string)
    : list object :=
  match defs with
  | [] => []
  | None :: rest => located rest kind x
  | Some t :: rest =>
      match exprFilter t kind x with
      | Some m => m :: located rest kind x
      | None => located rest kind x
      end
  end.

(** The same surroundings with another order of ranging over the import
    table. *)
Definition withRange (ext : Externals)
    (range : gmap string string -> list (string * string)) : Externals :=
  mkExternals (formatSource ext) (quote ext) (osArgs ext) range
              (writeError ext).

(** ** Notions used to state further properties *)

(** The sum of the character codes of a text. *)
Fixpoint weight (s : string) : nat :=
  match s with
  | EmptyString => O
  | String c r => (nat_of_ascii c + weight r)%nat
  end.

(** A type that is the named type [o], or a pointer, slice, array,
    channel or map with [o] for its element type: the types that
    [reducePointer] takes to [o]. *)
Definition oneLayerOf (t : type) (o : object) : Prop :=
  t = Named o \/ t = Pointer (Named o) \/ t = Slice (Named o)
  \/ (exists n, t = Array n (Named o))
  \/ (exists d, t = Chan d (Named o))
  \/ (exists k, t = Map k (Named o)).


(** The entry of a receiver-name table that may still be nil. *)
Definition lookupNames (vars : option (gmap string string)) (key : string)
    : option string :=
  match vars with
  | Some m => m !! key
  | None => None
  end.

(** The type name [Visit] reads off a receiver type: the identifier
    itself, or the identifier under one star. *)
Definition recvTypeName (e : Expr) : option string :=
  match e with
  | Ident t => Some t
  | StarExpr (Ident t) => Some t
  | _ => None
  end.

(** Whether a character occurs in a string. *)
Fixpoint hasChar (c : ascii) (s : string) : bool :=
  match s with
  | EmptyString => false
  | String d r => Ascii.eqb d c || hasChar c r
  end.

(** [field.Exported()]. *)
Definition varExported (v : Var) : bool :=
  match v with
  | mkVar _ _ e => e
  end.

(** The first line of the text of [generateFile]. *)
Definition generatedLine (ext : Externals) : string :=
  Str.cat ["// Code generated by "; Str.join (osArgs ext) " ";
           "; DO NOT EDIT."].

(** A computation whose normal return keeps a relation between the store
    before and the store after. *)
Definition keeps {A} (R : Store -> Store -> Prop) (m : M A) : Prop :=
  forall s a s', m s = Ok (a, s') -> R s s'.

(** The text that opens a slice case: the nil test, the allocation and
    the shallow copy of the elements. *)
Definition sliceOpen (source sink kind : string) : list string :=
  [Str.cat ["if "; source; " != nil {"; Str.nl;
            Str.tab; sink; " = make([]"; kind; ", len("; source;
            "))"; Str.nl];
   Str.cat ["copy("; sink; ", "; source; ")"; Str.nl]].

Definition sliceIdx (depth : Z) : string :=
  if 1 <? depth then "i" +:+ Str.itoa depth else "i".

(** The first line of the function generated for a type. *)
Definition funcComment (g : Generator) (obj : object) : string :=
  Str.cat ["// "; methodName g; " generates a deep copy of ";
           if isPtrRecv g then "*" else ""; Name obj].

(** ** Sample packages *)

Module Sample.

Definition model : Package := mkPackage "example.com/v2/model" "model".
Definition legacy : Package := mkPackage "example.com/v1/model" "model".
Definition other : Package := mkPackage "example.com/other" "other".

Definition tHolder := mkTypeName (Some model) "Holder".
Definition tT := mkTypeName (Some model) "T".
Definition tRoot := mkTypeName (Some model) "Root".
Definition tA := mkTypeName (Some model) "A".
Definition tB := mkTypeName (Some model) "B".
Definition tD := mkTypeName (Some model) "D".
Definition tE := mkTypeName (Some model) "E".
Definition tUser := mkTypeName (Some model) "User".
Definition tFoo := mkTypeName (Some model) "Foo".
Definition tLegacyFoo := mkTypeName (Some legacy) "Foo".
Definition tO := mkTypeName (Some other) "O".

Definition int : type := Basic "int".
Definition str : type := Basic "string".

(** [[
    type Holder struct { M map[*int]*int }
    type T struct { M map[string]int }
    type Root struct { P *A }
    type A struct { Next *B }
    type B struct { Next *A }
    type D struct{}   // with two methods of the configured name
    type E struct{}   // func (e *E) DeepCopy() *E
    type User struct { E E; PE *E; T T; PT *T; C chan int; O []other.O }
    type Foo struct { A []int }       // in example.com/v2/model
    type Foo struct { B []int }       // in example.com/v1/model
    type O struct { c chan int; C chan int }   // in example.com/other
    ]] *)
Definition env : TypeEnv := fun o =>
  if bool_decide (o = tHolder) then
    mkNamedDecl (Struct [mkVar "M" (Map (Pointer int) (Pointer int)) true]) []
  else if bool_decide (o = tT) then
    mkNamedDecl (Struct [mkVar "M" (Map str int) true]) []
  else if bool_decide (o = tRoot) then
    mkNamedDecl (Struct [mkVar "P" (Pointer (Named tA)) true]) []
  else if bool_decide (o = tA) then
    mkNamedDecl (Struct [mkVar "Next" (Pointer (Named tB)) true]) []
  else if bool_decide (o = tB) then
    mkNamedDecl (Struct [mkVar "Next" (Pointer (Named tA)) true]) []
  else if bool_decide (o = tD) then
    mkNamedDecl (Struct [])
      [mkFunc "DeepCopy" (Named tD) [] [int];
       mkFunc "DeepCopy" (Named tD) [] [Named tD]]
  else if bool_decide (o = tE) then
    mkNamedDecl (Struct [])
      [mkFunc "String" (Named tE) [] [str];
       mkFunc "DeepCopy" (Pointer (Named tE)) [] [Pointer (Named tE)]]
  else if bool_decide (o = tUser) then
    mkNamedDecl
      (Struct [mkVar "E" (Named tE) true;
               mkVar "PE" (Pointer (Named tE)) true;
               mkVar "T" (Named tT) true;
               mkVar "PT" (Pointer (Named tT)) true;
               mkVar "C" (Chan SendRecv int) true;
               mkVar "O" (Slice (Named tO)) true]) []
  else if bool_decide (o = tFoo) then
    mkNamedDecl (Struct [mkVar "A" (Slice int) true]) []
  else if bool_decide (o = tLegacyFoo) then
    mkNamedDecl (Struct [mkVar "B" (Slice int) true]) []
  else if bool_decide (o = tO) then
    mkNamedDecl (Struct [mkVar "c" (Chan SendRecv int) false;
                         mkVar "C" (Chan SendRecv int) true]) []
  else mkNamedDecl (Basic "invalid type") [].

(** A generator with value receivers, the method name [DeepCopy], no
    skip list and the given maximum depth, and its empty store. *)
Definition gen (maxDepth : Z) : Generator :=
  fst (NewGenerator false "DeepCopy" [] maxDepth).
Definition store0 : Store := snd (NewGenerator false "DeepCopy" [] 0).

Definition plainQuote (s : string) : string :=
  Str.dquote +:+ s +:+ Str.dquote.

(** A formatter that accepts every text and returns it as it is. *)
Definition extId : Externals :=
  mkExternals (fun s => inl s) plainQuote ["deep-copy"] map_to_list
              (fun _ => None).

(** A formatter that rejects every text. *)
Definition extReject : Externals :=
  mkExternals (fun _ => inr "1:1: expected declaration") plainQuote
              ["deep-copy"] map_to_list (fun _ => None).

(** A formatter that does not look at the text. *)
Definition extConst : Externals :=
mkExternals (fun _ => inl "package model") plainQuote ["deep-copy"]
map_to_list (fun _ => None).

Definition file1 : File :=
  mkFile [["// Package model holds the data model."]]
         [GenDecl; FuncDecl (Some [mkField ["u"] (StarExpr (Ident "User"))])].

Definition pkg : PackageInfo :=
  mkPackageInfo "model"
    [None; Some (Named tT); Some (Named tUser); Some (Pointer (Named tE));
     Some (Named tRoot); Some (Named tHolder)]
    [file1].

Definition pkgNoSyntax : PackageInfo :=
  mkPackageInfo "model" (Defs pkg) [].


(** More declarations:
    [[
    type S struct{}            // func (s S) DeepCopy() []S
    type Ch chan int           // func (c Ch) DeepCopy() Ch
    type Two struct { A []other.O; B []third.Q }
    ]] *)
Definition third : Package := mkPackage "example.com/third" "third".
Definition tS := mkTypeName (Some model) "S".
Definition tCh := mkTypeName (Some model) "Ch".
Definition tTwo := mkTypeName (Some model) "Two".
Definition tQ := mkTypeName (Some third) "Q".

Definition envMore : TypeEnv := fun o =>
if bool_decide (o = tS) then
  mkNamedDecl (Struct [])
    [mkFunc "DeepCopy" (Named tS) [] [Slice (Named tS)]]
else if bool_decide (o = tCh) then
  mkNamedDecl (Chan SendRecv int) [mkFunc "DeepCopy" (Named tCh) [] [Named tCh]]
else if bool_decide (o = tTwo) then
  mkNamedDecl (Struct [mkVar "A" (Slice (Named tO)) true;
                       mkVar "B" (Slice (Named tQ)) true]) []
else env o.

(** The package with the type [Two], a variable of the type [[]Two] and a
    nil object, ranged over in two orders. *)
Definition pkgTwo1 : PackageInfo :=
mkPackageInfo "model"
  [Some (Slice (Named tTwo)); Some (Named tTwo); None] [file1].

(** A formatter whose result is a checksum of the text: it depends on
    every character, and on the order of none. *)
Definition extSum : Externals :=
mkExternals (fun s => inl (Str.itoa (Z.of_nat (weight s)))) plainQuote
            ["deep-copy"] map_to_list (fun _ => None).

(** Two methods on [User], the receiver called [u] in the first and
    [usr] in the second, and a method on [T] whose receiver has no name. *)
Definition fileTwoNames : File :=
mkFile []
       [FuncDecl (Some [mkField ["u"] (StarExpr (Ident "User"))]);
        GenDecl;
        FuncDecl (Some [mkField ["usr"] (Ident "User")])].

Definition fileUnnamed : File :=
mkFile [["// helpers"]]
       [FuncDecl None; FuncDecl (Some [mkField [] (Ident "T")])].

Definition pkgUnnamed : PackageInfo :=
mkPackageInfo "model" (Defs pkg) [file1; fileUnnamed].

End Sample.

(** * Properties *)

(** ** Helper facts on the monad and the import bookkeeping *)

Lemma getElemType_ok (t : type) (x : string) (s : Store) :
  getElemType t x s
  = Ok (fst (TypeString (qualifier x) t (imports s)),
        mkStore (snd (TypeString (qualifier x) t (imports s))) (events s)).
Proof.
  unfold getElemType. destruct (TypeString _ t (imports s)); reflexivity.
Qed.

Lemma bind_ok {A B} (m : M A) (k : A -> M B) (s s' : Store) (a : A) :
  m s = Ok (a, s') -> bind m k s = k a s'.
Proof. intros H. unfold bind. rewrite H. reflexivity. Qed.

(** ** The method-reuse detector *)

(** Case analysis on the membership test of the generating set. *)
Ltac case_generating :=
  match goal with
  | |- context [existsb ?f ?l] => destruct (existsb f l)
  end.

(** The scan stops at the first candidate: a method of the configured
    name with no parameter and one result. *)
Lemma scanMethods_first_candidate (g : Generator) (ms : list Func) :
  scanMethods g ms
  = match find (candidate g) ms with
    | Some m =>
        if selfReturning m then (true, resultIsPointer m) else (false, false)
    | None => (false, false)
    end.
Proof.
  induction ms as [|m ms IH]; [reflexivity|].
  cbn [scanMethods find]. unfold candidate at 1.
  destruct (String.eqb (FuncName m) (methodName g)); cbn [negb andb]; [|exact IH].
  destruct (length (Params m) =? 0)%nat; cbn [negb orb andb]; [|exact IH].
  destruct (length (Results m) =? 1)%nat eqn:Hr; cbn [negb]; [|exact IH].
  unfold selfReturning, resultIsPointer.
  destruct (Results m) as [|r rs]; [discriminate|].
  destruct (reducePointer r) as [rt rp]; destruct (reducePointer (Recv m)) as [st sp].
  cbn [fst snd]. destruct (Identical rt st); reflexivity.
Qed.

(** Past the generating set, methods with another name or with the
    wrong number of parameters or results are passed over, and the first
    method of the configured name with no parameter and one result
    decides: found with the shape of its result when the result type is
    the receiver type once [reducePointer] is applied to each, not found
    otherwise, whatever methods come after it. *)
Lemma hasDeepCopy_first_candidate_decides
    (env : TypeEnv) (g : Generator) (v : TypeName) (generating : list object) :
  hasDeepCopy env g v generating
  = if existsb (fun t => Identical (Named v) (Named t)) generating
    then (true, isPtrRecv g)
    else
      match find (candidate g) (methods (env v)) with
      | Some m =>
          if selfReturning m then (true, resultIsPointer m)
          else (false, false)
      | None => (false, false)
      end.
Proof.
  unfold hasDeepCopy. case_generating; [reflexivity|].
  apply scanMethods_first_candidate.
Qed.

(** When no two methods have the same name, the search of the
    specification, which goes on past a method that does not match, ends
    where the first method of the configured name with no parameter and
    one result is. *)
Lemma find_candidate_unique (g : Generator) (ms : list Func) :
  NoDup (map FuncName ms) ->
  match find (candidate g) ms with
  | Some m => find (signatureMatches g) ms
              = if specSelfReturning m then Some m else None
  | None => find (signatureMatches g) ms = None
  end.
Proof.
  induction ms as [|m ms IH]; intros Hnd; [reflexivity|].
  cbn [map] in Hnd. apply NoDup_cons in Hnd as [Hnotin Hnd].
  cbn [find]. unfold signatureMatches at 1 3.
  destruct (candidate g m) eqn:Hc; cbn [andb].
  - destruct (specSelfReturning m); [reflexivity|].
    (* no later method has the name of [m] *)
    assert (Hname : String.eqb (FuncName m) (methodName g) = true).
    { unfold candidate in Hc. destruct (String.eqb _ _); [reflexivity|discriminate]. }
    apply String.eqb_eq in Hname.
    clear IH Hnd Hc. induction ms as [|m' ms IH]; [reflexivity|].
    cbn [find]. unfold signatureMatches at 1, candidate.
    destruct (String.eqb (FuncName m') (methodName g)) eqn:He.
    + apply String.eqb_eq in He. exfalso. apply Hnotin.
      cbn [map]. rewrite He, <- Hname. left.
    + cbn [andb]. apply IH. intros Hin. apply Hnotin. cbn [map]. now right.
  - specialize (IH Hnd). destruct (find (candidate g) ms); exact IH.
Qed.

Lemma reducePointer_pointerShaped (t : type) :
  pointerShaped t = true -> reducePointer t = stripPointer t.
Proof. destruct t; cbn; intros H; try discriminate; reflexivity. Qed.

Lemma selfReturning_plain (m : Func) :
  plainMethod m = true ->
  selfReturning m = specSelfReturning m
  /\ resultIsPointer m = specResultIsPointer m.
Proof.
  unfold plainMethod, selfReturning, specSelfReturning, resultIsPointer,
    specResultIsPointer.
  intros H. apply andb_true_iff in H as [Hrecv Hres].
  destruct (Results m) as [|r rs]; [split; reflexivity|].
  cbn [forallb] in Hres. apply andb_true_iff in Hres as [Hr _].
  rewrite (reducePointer_pointerShaped r Hr),
    (reducePointer_pointerShaped (Recv m) Hrecv).
  split; reflexivity.
Qed.

Lemma hasDeepCopy_unique_names
    (env : TypeEnv) (g : Generator) (v : TypeName) (generating : list object) :
  NoDup (map FuncName (methods (env v))) ->
  forallb plainMethod (methods (env v)) = true ->
  hasDeepCopy env g v generating = detectSpec env g v generating.
Proof.
  intros Hnd Hplain. rewrite hasDeepCopy_first_candidate_decides.
  unfold detectSpec. case_generating; [reflexivity|].
  pose proof (find_candidate_unique g _ Hnd) as H.
  destruct (find (candidate g) (methods (env v))) as [m|] eqn:Hfind.
  - rewrite H. apply find_some in Hfind as [Hin _].
    rewrite forallb_forall in Hplain.
    destruct (selfReturning_plain m (Hplain m Hin)) as [-> ->].
    destruct (specSelfReturning m); reflexivity.
  - rewrite H. reflexivity.
Qed.

(** On a list of methods with a repeated name, which the type checker
    does not hand over, the early return shows: the type [D] has a method
    of the configured name whose result is not [D], followed by one whose
    signature matches; the search of the specification finds the second,
    the code stops at the first. *)
Lemma hasDeepCopy_stops_at_mismatch :
  find (signatureMatches (Sample.gen 0)) (methods (Sample.env Sample.tD))
  = Some (mkFunc "DeepCopy" (Named Sample.tD) [] [Named Sample.tD])
  /\ detectSpec Sample.env (Sample.gen 0) Sample.tD [] = (true, false)
  /\ hasDeepCopy Sample.env (Sample.gen 0) Sample.tD [] = (false, false).
Proof. repeat split; vm_compute; reflexivity. Qed.

(** C2, on the code: the type [S] has one method of the configured name,
    [func (s S) DeepCopy() []S]. Its result is not [S] once at most one
    pointer is stripped, so no method matches and the detector of the
    specification reports that nothing was found. The code strips the
    slice as it strips a pointer, finds the receiver type under it, and
    reports the operation as found with a pointer for a result; for a
    field of the type [S] the walker then writes a call whose result, a
    slice, it dereferences. *)
Theorem hasDeepCopy_takes_slice_for_pointer :
  detectSpec Sample.envMore (Sample.gen 0) Sample.tS [] = (false, false)
  /\ hasDeepCopy Sample.envMore (Sample.gen 0) Sample.tS [] = (true, true)
  /\ walkType Sample.envMore (Sample.gen 0) 3 "o.F" "cp.F" "model"
       (Some (Named Sample.tS)) ∅ [Sample.tUser] 1 Sample.store0
     = Ok (Str.cat ["{"; Str.nl;
                    Str.tab; "retV := o.F.DeepCopy()"; Str.nl;
                    Str.tab; "cp.F = *retV"; Str.nl;
                    "}"; Str.nl], Sample.store0).
Proof. repeat split; vm_compute; reflexivity. Qed.

(** C5: a type identical to a member of the generating set is reported
    as found, with the receiver shape of the batch, whatever its methods
    are. *)
Theorem hasDeepCopy_generating_first
    (env : TypeEnv) (g : Generator) (v : TypeName) (generating : list object)
    (t : object) :
  In t generating ->
  Identical (Named v) (Named t) = true ->
  hasDeepCopy env g v generating = (true, isPtrRecv g)
  /\ forall env' : TypeEnv,
       hasDeepCopy env' g v generating = hasDeepCopy env g v generating.
Proof.
  intros Hin Hid.
  assert (He : existsb (fun t => Identical (Named v) (Named t)) generating = true).
  { apply existsb_exists. exists t. split; assumption. }
  split; [|intros env']; unfold hasDeepCopy; rewrite He; reflexivity.
Qed.

Lemma hasDeepCopy_generating_first_witness :
  hasDeepCopy Sample.env (Sample.gen 0) Sample.tD [Sample.tT; Sample.tD]
  = (true, false)
  /\ forall env' : TypeEnv,
       hasDeepCopy env' (Sample.gen 0) Sample.tD [Sample.tT; Sample.tD]
       = hasDeepCopy Sample.env (Sample.gen 0) Sample.tD [Sample.tT; Sample.tD].
Proof.
  apply (hasDeepCopy_generating_first Sample.env (Sample.gen 0) Sample.tD
           [Sample.tT; Sample.tD] Sample.tD).
  - right. left. reflexivity.
  - vm_compute. reflexivity.
Defined.

(** ** The skip lists *)

(** C10, the claim refuted: [Get] is not total on [int], a negative index
    is below the length and the indexing panics. *)
Lemma Get_negative_index_panics :
  Get [∅] (-1) = Panic "index out of range".
Proof. reflexivity. Qed.

(** C10, amended: for every index that is not negative, [Get] returns the
    skip set at that index when the index is below the length of the list,
    and the empty skip set, which contains no path, otherwise; the loop of
    [Generate], whose index is never negative, so goes on with the empty
    skip set for the types that have no skip list. *)
Theorem Get_total_from_zero (l : SkipLists) (i : Z) :
  0 <= i ->
  (i < Z.of_nat (length l) ->
   exists s, l !! Z.to_nat i = Some s /\ Get l i = Ok s)
  /\ (Z.of_nat (length l) <= i ->
      Get l i = Ok ∅ /\ forall sel, Contains ∅ sel = false)
  /\ (forall env fuel g p obj rest objs st,
        skipLists g = l ->
        Z.of_nat (length l) <= i ->
        generateAll env fuel g p i (obj :: rest) objs st
        = bind (generateFunc env fuel g p obj ∅ objs)
            (fun fn =>
               generateAll env fuel
                 {| isPtrRecv := isPtrRecv g; maxDepth := maxDepth g;
                    methodName := methodName g; skipLists := skipLists g;
                    fns := fns g ++ [fn];
                    receiverNames := receiverNames g |}
                 p (i + 1) rest objs) st).
Proof.
  intros Hi.
  assert (Hhigh : Z.of_nat (length l) <= i -> Get l i = Ok ∅).
  { intros Hge. unfold Get.
    destruct (i <? Z.of_nat (length l)) eqn:Hlt; [|reflexivity].
    apply Z.ltb_lt in Hlt. exfalso. lia. }
  split; [|split].
  - intros Hlt. unfold Get.
    destruct (i <? Z.of_nat (length l)) eqn:Hb;
      [|apply Z.ltb_ge in Hb; exfalso; lia].
    destruct (i <? 0) eqn:Hneg; [apply Z.ltb_lt in Hneg; exfalso; lia|].
    destruct (l !! Z.to_nat i) as [s|] eqn:Hl.
    + exists s. split; reflexivity.
    + apply lookup_ge_None in Hl. exfalso. lia.
  - intros Hge. split; [exact (Hhigh Hge)|].
    intros sel. unfold Contains. apply bool_decide_eq_false.
    apply not_elem_of_empty.
  - intros env fuel g p obj rest objs st Hl Hge.
    cbn [generateAll]. unfold bind at 1. rewrite Hl, (Hhigh Hge).
    reflexivity.
Qed.

Lemma Get_total_from_zero_witness :
  (1 < Z.of_nat (length [({["Name"]} : gset string)]) ->
   exists s, [({["Name"]} : gset string)] !! Z.to_nat 1 = Some s
             /\ Get [{["Name"]}] 1 = Ok s)
  /\ (Z.of_nat (length [({["Name"]} : gset string)]) <= 1 ->
      Get [{["Name"]}] 1 = Ok ∅ /\ forall sel, Contains ∅ sel = false)
  /\ (forall env fuel g p obj rest objs st,
        skipLists g = [{["Name"]}] ->
        Z.of_nat (length [({["Name"]} : gset string)]) <= 1 ->
        generateAll env fuel g p 1 (obj :: rest) objs st
        = bind (generateFunc env fuel g p obj ∅ objs)
            (fun fn =>
               generateAll env fuel
                 {| isPtrRecv := isPtrRecv g; maxDepth := maxDepth g;
                    methodName := methodName g; skipLists := skipLists g;
                    fns := fns g ++ [fn];
                    receiverNames := receiverNames g |}
                 p (1 + 1) rest objs) st).
Proof. apply (Get_total_from_zero [{["Name"]}] 1). lia. Defined.

(** ** The cases of the walker *)

Lemma walkChan_text (source sink x : string) (elem : type) (st : Store) :
  walkChan source sink x elem st
  = Ok (Str.cat ["if "; source; " != nil {"; Str.nl;
                 Str.tab; sink; " = make(chan ";
                 fst (TypeString (qualifier x) elem (imports st));
                 ", cap("; source; "))"; Str.nl;
                 "}"; Str.nl],
        mkStore (snd (TypeString (qualifier x) elem (imports st)))
                (events st)).
Proof.
  unfold walkChan.
  rewrite (bind_ok _ _ _ _ _ (getElemType_ok elem x st)). reflexivity.
Qed.

(** The channel case of the switch writes the allocation of a channel
    with the capacity of the source, guarded by the nil test, and nothing
    else: no skip entry or depth changes it, and no recursive call is
    made. *)
Lemma walkShape_chan_allocates
    (env : TypeEnv) (g : Generator) (self : walker)
    (source sink x : string) (dir : ChanDir) (elem : type)
    (needExported : bool) (sk : skips) (generating : list object)
    (depth : Z) (initial : bool) (st : Store) :
  walkShape env g self source sink x (Chan dir elem) needExported sk
    generating depth initial st
  = Ok (Str.cat ["if "; source; " != nil {"; Str.nl;
                 Str.tab; sink; " = make(chan ";
                 fst (TypeString (qualifier x) elem (imports st));
                 ", cap("; source; "))"; Str.nl;
                 "}"; Str.nl],
        mkStore (snd (TypeString (qualifier x) elem (imports st)))
                (events st)).
Proof. cbn [walkShape]. apply walkChan_text. Qed.

(** The walker gets to the channel case for every channel type it is
    called on that the depth cutoff does not stop: a channel type without
    a name has no method to reuse. *)
Lemma walkType_chan_unnamed
    (env : TypeEnv) (g : Generator) (fuel : nat)
    (source sink x : string) (dir : ChanDir) (elem : type) (sk : skips)
    (generating : list object) (depth : Z) (st : Store) :
  cutoffApplies g depth = false ->
  walkType env g (S fuel) source sink x (Some (Chan dir elem)) sk generating
    depth st
  = Ok (Str.cat ["if "; source; " != nil {"; Str.nl;
                 Str.tab; sink; " = make(chan ";
                 fst (TypeString (qualifier x) elem (imports st));
                 ", cap("; source; "))"; Str.nl;
                 "}"; Str.nl],
        mkStore (snd (TypeString (qualifier x) elem (imports st)))
                (events st)).
Proof.
  intros Hcut. cbn [walkType]. unfold walkStep.
  fold (cutoffApplies g depth). rewrite Hcut.
  cbn [asMethoder Underlying walkShape]. unfold bind.
  rewrite walkChan_text. reflexivity.
Qed.

(** C1, the claim refuted: with the entry [M[k]] in the skip set the
    values of the map [M] are not copied in depth either, the loop inserts
    key and value as they are; and an entry for the values alone, such as
    [M[v]], is not looked up at all, key and value are both copied. *)
Lemma walkMap_skip_covers_key_and_value :
  walkType Sample.env (Sample.gen 0) 5 "o" "cp" "model"
    (Some (Named Sample.tHolder)) {["M[k]"]} [Sample.tHolder] 0 Sample.store0
  = Ok (mapHead "o.M" "cp.M" "*int" "*int" "k2" "v2"
        +:+ Str.cat ["cp.M[k2] = v2"; "}"; Str.nl; "}"; Str.nl],
        Sample.store0)
  /\ walkType Sample.env (Sample.gen 0) 5 "o" "cp" "model"
       (Some (Named Sample.tHolder)) {["M[v]"]} [Sample.tHolder] 0
       Sample.store0
     = walkType Sample.env (Sample.gen 0) 5 "o" "cp" "model"
         (Some (Named Sample.tHolder)) ∅ [Sample.tHolder] 0 Sample.store0
  /\ walkType Sample.env (Sample.gen 0) 5 "o" "cp" "model"
       (Some (Named Sample.tHolder)) ∅ [Sample.tHolder] 0 Sample.store0
     = Ok (mapHead "o.M" "cp.M" "*int" "*int" "k2" "v2"
           +:+ Str.cat ["var cp_M_k2 *int"; Str.nl;
                        "if k2 != nil {"; Str.nl;
                        "cp_M_k2 = new(int)"; Str.nl;
                        Str.tab; "*cp_M_k2 = *k2"; Str.nl;
                        "}"; Str.nl;
                        "var cp_M_v2 *int"; Str.nl;
                        "if v2 != nil {"; Str.nl;
                        "cp_M_v2 = new(int)"; Str.nl;
                        Str.tab; "*cp_M_v2 = *v2"; Str.nl;
                        "}"; Str.nl;
                        "cp.M[cp_M_k2] = cp_M_v2"; "}"; Str.nl; "}"; Str.nl],
           Sample.store0).
Proof. repeat split; vm_compute; reflexivity. Qed.

(** C1, amended: one lookup of the selector of the map decides for key
    and value together. When the selector is in the skip set, the loop
    inserts key and value as they are and the walker is called on
    neither; when it is not, the walker is called on the key and then on
    the value, and each is replaced by its temporary when the walk wrote
    something for it. *)
Theorem walkMap_one_lookup
    (self : walker) (source sink x : string) (tkey telem : type)
    (sk : skips) (generating : list object) (depth : Z) (initial : bool)
    (st : Store) :
  let key := mapKey depth in
  let val := mapVal depth in
  (Contains sk (mapSel sink initial) = true ->
   walkMap self source sink x tkey telem sk generating depth initial st
   = bind (getElemType tkey x) (fun kkind =>
     bind (getElemType telem x) (fun vkind =>
     ret (mapHead source sink kkind vkind key val
          +:+ Str.cat [sink; "["; key; "] = "; val;
                       "}"; Str.nl; "}"; Str.nl]))) st)
  /\ (Contains sk (mapSel sink initial) = false ->
      walkMap self source sink x tkey telem sk generating depth initial st
      = bind (getElemType tkey x) (fun kkind =>
        bind (getElemType telem x) (fun vkind =>
        bind (self key (selToIdent sink +:+ "_" +:+ key) x (Some tkey) sk
                   generating depth) (fun bk =>
        bind (self val (selToIdent sink +:+ "_" +:+ val) x (Some telem) sk
                   generating depth) (fun bv =>
        let ksink := if (0 <? String.length bk)%nat
                     then selToIdent sink +:+ "_" +:+ key else key in
        let vsink := if (0 <? String.length bv)%nat
                     then selToIdent sink +:+ "_" +:+ val else val in
        let wk := if (0 <? String.length bk)%nat
                  then Str.cat ["var "; ksink; " "; kkind; Str.nl; bk]
                  else "" in
        let wv := if (0 <? String.length bv)%nat
                  then Str.cat ["var "; vsink; " "; vkind; Str.nl; bv]
                  else "" in
        ret (mapHead source sink kkind vkind key val
             +:+ Str.cat [wk; wv; sink; "["; ksink; "] = "; vsink;
                          "}"; Str.nl; "}"; Str.nl]))))) st).
Proof.
  intros key val. unfold walkMap, mapSkips, mapSel.
  fold (mapKey depth) (mapVal depth). fold key val.
  split; intros H; rewrite H; unfold bind, mapHead.
  - destruct (getElemType tkey x st) as [[kk s1]| |]; try reflexivity;
      destruct (getElemType telem x s1) as [[vk s2]| |]; reflexivity.
  - destruct (getElemType tkey x st) as [[kk s1]| |]; try reflexivity.
    destruct (getElemType telem x s1) as [[vk s2]| |]; try reflexivity.
    cbn [negb].
    destruct (self key _ x (Some tkey) sk generating depth s2)
      as [[bk s3]| |]; try reflexivity.
    destruct (0 <? String.length bk)%nat;
      (cbn [ret];
       destruct (self val _ x (Some telem) sk generating depth s3)
         as [[bv s4]| |]; try reflexivity;
       destruct (0 <? String.length bv)%nat; reflexivity).
Qed.

Lemma walkMap_one_lookup_witness :
  walkMap (walkType Sample.env (Sample.gen 0) 3) "o.M" "cp.M" "model"
    (Pointer Sample.int) (Pointer Sample.int) {["M[k]"]} [Sample.tHolder] 2
    false Sample.store0
  = Ok (mapHead "o.M" "cp.M" "*int" "*int" "k2" "v2"
        +:+ Str.cat ["cp.M[k2] = v2"; "}"; Str.nl; "}"; Str.nl],
        Sample.store0).
Proof.
  rewrite (proj1 (walkMap_one_lookup (walkType Sample.env (Sample.gen 0) 3)
                    "o.M" "cp.M" "model" (Pointer Sample.int)
                    (Pointer Sample.int) {["M[k]"]} [Sample.tHolder] 2 false
                    Sample.store0)).
  - vm_compute. reflexivity.
  - vm_compute. reflexivity.
Defined.

(** ** The reuse check *)

Lemma bind_ret_r {A} (m : M A) (s : Store) : bind m ret s = m s.
Proof. unfold bind, ret. destruct (m s) as [[a s']| |]; reflexivity. Qed.

(** [reuseDeepCopy] writes the call when the detector finds the
    operation, and nothing otherwise. *)
Lemma reuseDeepCopy_spec (env : TypeEnv) (g : Generator)
    (source sink : string) (v : TypeName) (pointer : bool)
    (generating : list object) :
  reuseDeepCopy env g source sink v pointer generating
  = if fst (hasDeepCopy env g v generating)
    then (callText g source sink pointer
            (snd (hasDeepCopy env g v generating)), true)
    else ("", false).
Proof.
  unfold reuseDeepCopy, callText.
  destruct (hasDeepCopy env g v generating) as [[|] isPointer]; cbn [fst snd];
    [|reflexivity].
  destruct (Bool.eqb pointer isPointer); [reflexivity|].
  destruct pointer; reflexivity.
Qed.

(** C6, the claim refuted: one level below the root, with the maximum
    depth 1, the walker is called on the type [T], which is in the
    generating set and so has the operation; the cutoff is tested first,
    the detector is not consulted and no call is written. *)
Lemma walkType_cutoff_precedes_reuse :
  hasDeepCopy Sample.env (Sample.gen 1) Sample.tT [Sample.tUser; Sample.tT]
  = (true, false)
  /\ walkType Sample.env (Sample.gen 1) 5 "o.T" "cp.T" "model"
       (Some (Named Sample.tT)) ∅ [Sample.tUser; Sample.tT] 1 Sample.store0
     = Ok ("",
           mkStore ∅
             [Warning ("WARNING: reached max depth 1. stop recursion at "
                       +:+ "example.com/v2/model.User")]).
Proof. split; vm_compute; reflexivity. Qed.

(** C6, amended: in a call the depth cutoff does not stop, the reuse
    check is skipped at depth 0 and made at every other depth on a type
    with methods; when the detector finds the operation the walker writes
    the call for a wanted value and returns without looking at the shape
    of the type, and otherwise goes on to the shape. The pointer case
    does the same for the pointee, with a pointer wanted, inside the nil
    test. The call is a plain assignment when the wanted and the returned
    shape agree, stores the result and takes its address when a pointer
    is wanted from a value, and dereferences the result into the sink when
    a value is wanted from a pointer. *)
Theorem walkStep_reuse_past_cutoff
    (env : TypeEnv) (g : Generator) (self : walker)
    (source sink x : string) (t : type) (sk : skips)
    (generating : list object) (depth : Z) (st : Store) :
  cutoffApplies g depth = false ->
  walkStep env g self source sink x (Some t) sk generating depth st
  = match (if depth =? 0 then None else asMethoder t) with
    | Some v =>
        if fst (hasDeepCopy env g v generating)
        then Ok (callText g source sink false
                   (snd (hasDeepCopy env g v generating)), st)
        else walkShape env g self source sink x (Underlying env t)
               (needsExported t x) sk generating (depth + 1) (depth =? 0) st
    | None =>
        walkShape env g self source sink x (Underlying env t)
          (needsExported t x) sk generating (depth + 1) (depth =? 0) st
    end
  /\ forall (elem : type) (needExported initial : bool) (d : Z),
       walkShape env g self source sink x (Pointer elem) needExported sk
         generating d initial st
       = let descend :=
           bind (getElemType elem x) (fun kind =>
           bind (self source sink x (Some elem) sk generating d)
             (fun inner =>
           ret (Str.cat [Str.cat ["if "; source; " != nil {"; Str.nl];
                         Str.cat [sink; " = new("; kind; ")"; Str.nl;
                                  Str.tab; "*"; sink; " = *"; source; Str.nl;
                                  inner];
                         "}"; Str.nl]))) st in
         match (if initial then None else asMethoder elem) with
         | Some e =>
             if fst (hasDeepCopy env g e generating)
             then Ok (Str.cat [Str.cat ["if "; source; " != nil {"; Str.nl];
                               callText g source sink true
                                 (snd (hasDeepCopy env g e generating));
                               "}"; Str.nl], st)
             else descend
         | None => descend
         end.
Proof.
  intros Hcut. split.
  - unfold walkStep. fold (cutoffApplies g depth). rewrite Hcut.
    fold (needsExported t x).
    assert (Hshape : forall sh,
              bind sh (fun w2 => ret ("" +:+ w2)) st = sh st).
    { intros sh. apply (bind_ret_r sh st). }
    destruct (depth =? 0); cbn [negb].
    + destruct (asMethoder t); apply Hshape.
    + destruct (asMethoder t) as [v|]; [|apply Hshape].
      rewrite reuseDeepCopy_spec.
      destruct (fst (hasDeepCopy env g v generating)); [reflexivity|].
      apply Hshape.
  - intros elem needExported initial d. cbn [walkShape]. unfold walkPointer.
    assert (Hdesc :
      bind (if negb false
            then bind (getElemType elem x) (fun kind =>
                 bind (self source sink x (Some elem) sk generating d)
                   (fun inner =>
                 ret (Str.cat [sink; " = new("; kind; ")"; Str.nl;
                               Str.tab; "*"; sink; " = *"; source; Str.nl;
                               inner])))
            else ret "")
        (fun w3 => ret (Str.cat [Str.cat ["if "; source; " != nil {"; Str.nl];
                                 ""; w3; "}"; Str.nl])) st
      = bind (getElemType elem x) (fun kind =>
        bind (self source sink x (Some elem) sk generating d) (fun inner =>
        ret (Str.cat [Str.cat ["if "; source; " != nil {"; Str.nl];
                      Str.cat [sink; " = new("; kind; ")"; Str.nl;
                               Str.tab; "*"; sink; " = *"; source; Str.nl;
                               inner];
                      "}"; Str.nl]))) st).
    { cbn [negb]. unfold bind.
      destruct (getElemType elem x st) as [[kind s1]| |]; try reflexivity.
      destruct (self source sink x (Some elem) sk generating d s1)
        as [[inner s2]| |]; reflexivity. }
    destruct initial.
    + destruct (asMethoder elem); exact Hdesc.
    + destruct (asMethoder elem) as [e|]; [|exact Hdesc].
      rewrite reuseDeepCopy_spec.
      destruct (fst (hasDeepCopy env g e generating)); [reflexivity|].
      exact Hdesc.
Qed.

Lemma walkStep_reuse_past_cutoff_witness :
  walkType Sample.env (Sample.gen 0) 5 "o.E" "cp.E" "model"
    (Some (Named Sample.tE)) ∅ [Sample.tUser] 1 Sample.store0
  = Ok (Str.cat ["{"; Str.nl;
                 Str.tab; "retV := o.E.DeepCopy()"; Str.nl;
                 Str.tab; "cp.E = *retV"; Str.nl;
                 "}"; Str.nl], Sample.store0).
Proof.
  change (walkType Sample.env (Sample.gen 0) 5)
    with (walkStep Sample.env (Sample.gen 0)
            (walkType Sample.env (Sample.gen 0) 4)).
  rewrite (proj1 (walkStep_reuse_past_cutoff Sample.env (Sample.gen 0)
                    (walkType Sample.env (Sample.gen 0) 4) "o.E" "cp.E"
                    "model" (Named Sample.tE) ∅ [Sample.tUser] 1
                    Sample.store0 eq_refl)).
  vm_compute. reflexivity.
Defined.

(** ** The channel case in the walk *)


(** The element type is written as [TypeString] prints it, with no
    parentheses: for a receive-only channel as the element type the text
    after [make] reads as another type than the channel type printed by
    [TypeString]. *)
Lemma walkChan_receive_only_element :
  walkType Sample.env (Sample.gen 0) 1 "o.C" "cp.C" "model"
    (Some (Chan SendRecv (Chan RecvOnly Sample.int))) ∅ [Sample.tUser] 1
    Sample.store0
  = Ok (Str.cat ["if o.C != nil {"; Str.nl;
                 Str.tab; "cp.C = make(chan <-chan int, cap(o.C))"; Str.nl;
                 "}"; Str.nl], Sample.store0)
  /\ typeToString (Chan SendRecv (Chan RecvOnly Sample.int))
     = "chan (<-chan int)".
Proof. split; vm_compute; reflexivity. Qed.



(** ** The depth cutoff *)

Lemma append_empty_r (s : string) : s +:+ "" = s.
Proof.
  induction s as [|c s IH]; [reflexivity|].
  change (String c (s +:+ "") = String c s). f_equal. exact IH.
Qed.

Lemma append_snoc (s r : string) (c : ascii) :
  (s +:+ String c "") +:+ r = s +:+ String c r.
Proof.
  induction s as [|d s IH]; [reflexivity|].
  change (String d ((s +:+ String c "") +:+ r) = String d (s +:+ String c r)).
  f_equal. exact IH.
Qed.

(** With no positive maximum depth the cutoff is never taken. *)
Lemma cutoff_never_without_maximum (g : Generator) (depth : Z) :
  maxDepth g <= 0 -> cutoffApplies g depth = false.
Proof.
  intros H. unfold cutoffApplies.
  destruct (0 <? maxDepth g) eqn:Hpos; [|reflexivity].
  apply Z.ltb_lt in Hpos. exfalso. lia.
Qed.

(** At the root the cutoff is never taken either. *)
Lemma cutoff_never_at_root (g : Generator) : cutoffApplies g 0 = false.
Proof.
  unfold cutoffApplies.
  destruct (0 <? maxDepth g) eqn:Hpos; [|reflexivity].
  apply Z.ltb_lt in Hpos. cbn [andb]. apply Z.leb_gt. exact Hpos.
Qed.

(** When the sink has a dot, the cutoff writes nothing, logs its warning
    and returns. *)
Lemma walkStep_cutoff_with_dot
    (env : TypeEnv) (g : Generator) (self : walker)
    (source sink x : string) (t : type) (sk : skips) (t0 : object)
    (generating : list object) (depth : Z) (st : Store) :
  cutoffApplies g depth = true ->
  (2 <= length (Str.splitDot sink))%nat ->
  exists msg,
    walkStep env g self source sink x (Some t) sk (t0 :: generating) depth st
    = Ok ("", mkStore (imports st) (events st ++ [Warning msg])).
Proof.
  intros Hcut Hlen. unfold walkStep. fold (cutoffApplies g depth).
  rewrite Hcut. unfold cutoff.
  destruct (length (Str.splitDot sink) <? 2)%nat eqn:Hlt.
  - apply Nat.ltb_lt in Hlt. exfalso. lia.
  - eexists. reflexivity.
Qed.

(** When the sink has no dot, as the temporaries of a map and the
    elements of a root slice have none, the cutoff panics. *)
Lemma walkStep_cutoff_without_dot
    (env : TypeEnv) (g : Generator) (self : walker)
    (source sink x : string) (t : type) (sk : skips) (t0 : object)
    (generating : list object) (depth : Z) (st : Store) :
  cutoffApplies g depth = true ->
  Str.hasDot sink = false ->
  walkStep env g self source sink x (Some t) sk (t0 :: generating) depth st
  = Panic "slice bounds out of range [1:0]".
Proof.
  intros Hcut Hdot. unfold walkStep. fold (cutoffApplies g depth).
  rewrite Hcut. unfold cutoff.
  assert (Hone : forall cur, Str.splitDotAux cur sink = [cur +:+ sink]).
  { clear Hcut. induction sink as [|c r IH]; intros cur.
    - cbn. now rewrite append_empty_r.
    - cbn in Hdot |- *. apply orb_false_iff in Hdot as [Hc Hr].
      rewrite Hc, (IH Hr). now rewrite append_snoc. }
  unfold Str.splitDot. rewrite Hone. reflexivity.
Qed.

(** C3, on the code: the type [T] is a struct with a map field and the
    maximum depth is 2. The walk of the key of the map is at depth 2 with
    the sink [cp_M_k2]; the cutoff splits the sink at its dots, finds one
    piece, and the slice [p[1:len(p)-1]] panics: no warning is logged and
    the generator does not return. *)
Theorem cutoff_panics_on_map_temporary :
  walkType Sample.env (Sample.gen 2) 1 "k2" "cp_M_k2" "model"
    (Some Sample.str) ∅ [Sample.tT] 2 Sample.store0
  = Panic "slice bounds out of range [1:0]"
  /\ Generate Sample.env Sample.extId 5 (Sample.gen 2) ["T"] Sample.pkg
       Sample.store0
     = Panic "slice bounds out of range [1:0]".
Proof. split; vm_compute; reflexivity. Qed.

(** ** Termination *)

Lemma fuelled_ret {A} (a : A) : fuelled (ret a).
Proof. intros s. discriminate. Qed.

Lemma fuelled_panic {A} (msg : string) : fuelled (@panic A msg).
Proof. intros s. discriminate. Qed.

Lemma fuelled_bind {A B} (m : M A) (k : A -> M B) :
  fuelled m -> (forall a, fuelled (k a)) -> fuelled (bind m k).
Proof.
  intros Hm Hk s. unfold bind. specialize (Hm s).
  destruct (m s) as [[a s']| |]; [apply Hk|discriminate|contradiction].
Qed.

Lemma fuelled_getElemType (t : type) (x : string) : fuelled (getElemType t x).
Proof. intros s. rewrite getElemType_ok. discriminate. Qed.

Lemma fuelled_logPrintf (msg : string) : fuelled (logPrintf msg).
Proof. intros s. discriminate. Qed.

Lemma fuelled_cutoff (sink : string) (generating : list object) (depth : Z) :
  fuelled (cutoff sink generating depth).
Proof.
  unfold cutoff. destruct generating; [apply fuelled_panic|].
  destruct (_ <? _)%nat; [apply fuelled_panic|].
  apply fuelled_bind; [apply fuelled_logPrintf|intros; apply fuelled_ret].
Qed.

Create HintDb fuelled.
#[local] Hint Resolve fuelled_ret fuelled_panic fuelled_getElemType
  fuelled_logPrintf fuelled_cutoff : fuelled.

Section StepTerminates.

Variable env : TypeEnv.
Variable g : Generator.
Variable self : walker.
Variable depth : Z.

(** The calls the body makes are all one level down. *)
Hypothesis self_fuelled :
  forall source sink x m sk generating,
    fuelled (self source sink x m sk generating (depth + 1)).

Lemma fuelled_walkFields source sink x needExported fields sk generating :
  fuelled (walkFields self source sink x needExported fields sk generating
             (depth + 1)).
Proof.
  induction fields as [|[fname ftype fexported] rest IH]; cbn [walkFields];
    [apply fuelled_ret|].
  apply fuelled_bind.
  - destruct (needExported && negb fexported); [apply fuelled_ret|].
    case_bool_decide; [apply fuelled_ret|apply self_fuelled].
  - intros out. apply fuelled_bind; [exact IH|intros; apply fuelled_ret].
Qed.

Lemma fuelled_walkShape source sink x under needExported sk generating
    initial :
  fuelled (walkShape env g self source sink x under needExported sk
             generating (depth + 1) initial).
Proof.
  destruct under; cbn [walkShape]; try apply fuelled_ret.
  - (* pointer *)
    unfold walkPointer.
    destruct (match asMethoder under with
              | Some e => if initial then ("", false)
                          else reuseDeepCopy env g source sink e true
                                 generating
              | None => ("", false)
              end) as [w2 reused].
    apply fuelled_bind; [|intros; apply fuelled_ret].
    destruct reused; cbn [negb]; [apply fuelled_ret|].
    apply fuelled_bind; [apply fuelled_getElemType|intros kind].
    apply fuelled_bind; [apply self_fuelled|intros; apply fuelled_ret].
  - (* slice *)
    unfold walkSlice.
    apply fuelled_bind; [apply fuelled_getElemType|intros kind].
    apply fuelled_bind; [|intros; apply fuelled_ret].
    destruct (negb _); [apply self_fuelled|apply fuelled_ret].
  - (* channel *)
    unfold walkChan.
    apply fuelled_bind; [apply fuelled_getElemType|intros; apply fuelled_ret].
  - (* map *)
    unfold walkMap.
    apply fuelled_bind; [apply fuelled_getElemType|intros kkind].
    apply fuelled_bind; [apply fuelled_getElemType|intros vkind].
    destruct (mapSkips sk _) as [skipKey skipValue].
    apply fuelled_bind.
    { destruct (negb skipKey); [|apply fuelled_ret].
      apply fuelled_bind; [apply self_fuelled|intros b].
      destruct (_ <? _)%nat; apply fuelled_ret. }
    intros kres. apply fuelled_bind.
    { destruct (negb skipValue); [|apply fuelled_ret].
      apply fuelled_bind; [apply self_fuelled|intros b].
      destruct (_ <? _)%nat; apply fuelled_ret. }
    intros vres. destruct kres, vres. apply fuelled_ret.
  - (* struct *)
    apply fuelled_walkFields.
Qed.

Lemma fuelled_walkStep source sink x m sk generating :
  fuelled (walkStep env g self source sink x m sk generating depth).
Proof.
  unfold walkStep. destruct m as [t|]; [|apply fuelled_ret].
  destruct (_ && _); [apply fuelled_cutoff|].
  destruct (match asMethoder t with
            | Some v => if negb (depth =? 0)
                        then reuseDeepCopy env g source sink v false
                               generating
                        else ("", false)
            | None => ("", false)
            end) as [w1 reused].
  destruct reused; [apply fuelled_ret|].
  apply fuelled_bind; [apply fuelled_walkShape|intros; apply fuelled_ret].
Qed.

End StepTerminates.

Section StepMonotone.

Variable env : TypeEnv.
Variable g : Generator.
Variables self1 self2 : walker.

(** The second walker does what the first does, given more fuel. *)
Hypothesis self_below :
  forall source sink x m sk generating depth,
    below (self1 source sink x m sk generating depth)
          (self2 source sink x m sk generating depth).

Lemma below_refl {A} (m : M A) : below m m.
Proof. intros s _. reflexivity. Qed.

Lemma below_bind {A B} (m1 m2 : M A) (k1 k2 : A -> M B) :
  below m1 m2 -> (forall a, below (k1 a) (k2 a)) ->
  below (bind m1 k1) (bind m2 k2).
Proof.
  intros Hm Hk s. unfold bind. specialize (Hm s).
  destruct (m1 s) as [[a s']| |] eqn:E.
  - rewrite <- Hm by discriminate. apply Hk.
  - rewrite <- Hm by discriminate. reflexivity.
  - intros H. contradiction.
Qed.

Lemma below_walkFields source sink x needExported fields sk generating depth :
  below (walkFields self1 source sink x needExported fields sk generating depth)
        (walkFields self2 source sink x needExported fields sk generating depth).
Proof.
  induction fields as [|[fname ftype fexported] rest IH]; cbn [walkFields];
    [apply below_refl|].
  apply below_bind.
  - destruct (needExported && negb fexported); [apply below_refl|].
    case_bool_decide; [apply below_refl|apply self_below].
  - intros out. apply below_bind; [exact IH|intros; apply below_refl].
Qed.

Lemma below_walkShape source sink x under needExported sk generating depth
    initial :
  below (walkShape env g self1 source sink x under needExported sk generating
           depth initial)
        (walkShape env g self2 source sink x under needExported sk generating
           depth initial).
Proof.
  destruct under; cbn [walkShape]; try apply below_refl.
  - unfold walkPointer.
    destruct (match asMethoder under with
              | Some e => if initial then ("", false)
                          else reuseDeepCopy env g source sink e true
                                 generating
              | None => ("", false)
              end) as [w2 reused].
    apply below_bind; [|intros; apply below_refl].
    destruct reused; cbn [negb]; [apply below_refl|].
    apply below_bind; [apply below_refl|intros kind].
    apply below_bind; [apply self_below|intros; apply below_refl].
  - unfold walkSlice.
    apply below_bind; [apply below_refl|intros kind].
    apply below_bind; [|intros; apply below_refl].
    destruct (negb _); [apply self_below|apply below_refl].
  - unfold walkMap.
    apply below_bind; [apply below_refl|intros kkind].
    apply below_bind; [apply below_refl|intros vkind].
    destruct (mapSkips sk _) as [skipKey skipValue].
    apply below_bind.
    { destruct (negb skipKey); [|apply below_refl].
      apply below_bind; [apply self_below|intros; apply below_refl]. }
    intros kres. apply below_bind; [|intros; apply below_refl].
    destruct (negb skipValue); [|apply below_refl].
    apply below_bind; [apply self_below|intros; apply below_refl].
  - apply below_walkFields.
Qed.

Lemma below_walkStep source sink x m sk generating depth :
  below (walkStep env g self1 source sink x m sk generating depth)
        (walkStep env g self2 source sink x m sk generating depth).
Proof.
  unfold walkStep. destruct m as [t|]; [|apply below_refl].
  destruct (_ && _); [apply below_refl|].
  destruct (match asMethoder t with
            | Some v => if negb (depth =? 0)
                        then reuseDeepCopy env g source sink v false
                               generating
                        else ("", false)
            | None => ("", false)
            end) as [w1 reused].
  destruct reused; [apply below_refl|].
  apply below_bind; [apply below_walkShape|intros; apply below_refl].
Qed.

End StepMonotone.

(** More fuel does not change a result that was reached. *)
Lemma walkType_more_fuel
    (env : TypeEnv) (g : Generator) (fuel fuel' : nat)
    (source sink x : string) (m : option type) (sk : skips)
    (generating : list object) (depth : Z) (st : Store) :
  (fuel <= fuel')%nat ->
  walkType env g fuel source sink x m sk generating depth st <> OutOfFuel ->
  walkType env g fuel source sink x m sk generating depth st
  = walkType env g fuel' source sink x m sk generating depth st.
Proof.
  revert fuel' source sink x m sk generating depth st.
  induction fuel as [|fuel IH];
    intros fuel' source sink x m sk generating depth st Hle Hne.
  - exfalso. apply Hne. reflexivity.
  - destruct fuel' as [|fuel']; [exfalso; lia|].
    cbn [walkType] in Hne |- *.
    apply (below_walkStep env g (walkType env g fuel) (walkType env g fuel'));
      [|exact Hne].
    intros source' sink' x' m' sk' generating' depth' s' Hne'.
    apply IH; [lia|exact Hne'].
Qed.

Lemma fuelled_walkType
    (env : TypeEnv) (g : Generator) (fuel : nat)
    (source sink x : string) (m : option type) (sk : skips)
    (generating : list object) (depth : Z) (st : Store) :
  0 < maxDepth g ->
  (Z.to_nat (maxDepth g - depth) < fuel)%nat ->
  walkType env g fuel source sink x m sk generating depth st <> OutOfFuel.
Proof.
  intros Hpos. revert source sink x m sk generating depth st.
  induction fuel as [|fuel IH]; intros source sink x m sk generating depth st
    Hfuel; [exfalso; lia|].
  cbn [walkType].
  destruct (cutoffApplies g depth) eqn:Hcut.
  - unfold walkStep. fold (cutoffApplies g depth). rewrite Hcut.
    destruct m; [apply fuelled_cutoff|discriminate].
  - apply fuelled_walkStep.
    intros source' sink' x' m' sk' generating' st'. apply IH.
    unfold cutoffApplies in Hcut. apply andb_false_iff in Hcut as [Hc|Hc].
    + apply Z.ltb_ge in Hc. exfalso. lia.
    + apply Z.leb_gt in Hc. lia.
Qed.

(** C4: with a positive maximum depth the walk of any type in any type
    environment, cyclic or not, comes to an end: a call at a depth takes
    no more nested calls than the levels left up to the maximum, plus
    one, since every recursive call is made one level down and a call at
    the maximum, or beyond it, makes none. *)
Theorem walkType_terminates
    (env : TypeEnv) (g : Generator) (fuel : nat)
    (source sink x : string) (m : option type) (sk : skips)
    (generating : list object) (depth : Z) (st : Store) :
  0 < maxDepth g ->
  (Z.to_nat (maxDepth g - depth) < fuel)%nat ->
  exists r : res (string * Store),
    walkType env g fuel source sink x m sk generating depth st = r
    /\ r <> OutOfFuel
    /\ forall fuel', (fuel <= fuel')%nat ->
          walkType env g fuel' source sink x m sk generating depth st = r.
Proof.
  intros Hpos Hfuel. eexists. split; [reflexivity|]. split.
  - now apply fuelled_walkType.
  - intros fuel' Hle. symmetry.
    apply walkType_more_fuel; [exact Hle|].
    now apply fuelled_walkType.
Qed.

Lemma walkType_terminates_witness :
  exists r : res (string * Store),
    walkType Sample.env (Sample.gen 3) 4 "o" "cp" "model"
      (Some (Named Sample.tRoot)) ∅ [Sample.tRoot] 0 Sample.store0 = r
    /\ r <> OutOfFuel
    /\ forall fuel', (4 <= fuel')%nat ->
          walkType Sample.env (Sample.gen 3) fuel' "o" "cp" "model"
            (Some (Named Sample.tRoot)) ∅ [Sample.tRoot] 0 Sample.store0 = r.
Proof.
  apply walkType_terminates.
  - vm_compute. reflexivity.
  - vm_compute. lia.
Defined.

(** The function generated for a target type is produced, or the run
    panics, once the fuel exceeds a positive maximum depth. *)
Lemma generateFunc_terminates
    (env : TypeEnv) (g : Generator) (fuel : nat) (p : PackageInfo)
    (obj : object) (sk : skips) (generating : list object) :
  0 < maxDepth g ->
  (Z.to_nat (maxDepth g) < fuel)%nat ->
  fuelled (generateFunc env fuel g p obj sk generating).
Proof.
  intros Hpos Hfuel. unfold generateFunc.
  apply fuelled_bind.
  - destruct (match receiverNames g with
              | Some names =>
                  match names !! Name obj with
                  | Some n => if String.eqb n "" then None else Some n
                  | None => None
                  end
              | None => None
              end).
    + apply fuelled_bind; [intros st; discriminate|intros; apply fuelled_ret].
    + apply fuelled_ret.
  - intros source. apply fuelled_bind; [|intros; apply fuelled_ret].
    intros st. apply fuelled_walkType; [exact Hpos|].
    replace (maxDepth g - 0) with (maxDepth g) by lia. exact Hfuel.
Qed.

(** Without a maximum depth the walk of the cycle [A], [B] from [Root]
    goes on as far as the fuel lasts. *)
Example walkType_cycle_unbounded :
  walkType Sample.env (Sample.gen 0) 40 "o" "cp" "model"
    (Some (Named Sample.tRoot)) ∅ [Sample.tRoot] 0 Sample.store0
  = OutOfFuel.
Proof. vm_compute. reflexivity. Qed.

(** With the maximum depth 3 it stops with a warning at the field [Next]
    of [A], three levels down (the struct, the pointer, the struct), and
    what lies beyond is left as the shallow copy made it. *)
Example walkType_cycle_cut :
  walkType Sample.env (Sample.gen 3) 4 "o" "cp" "model"
    (Some (Named Sample.tRoot)) ∅ [Sample.tRoot] 0 Sample.store0
  = Ok (Str.cat ["if o.P != nil {"; Str.nl;
                 "cp.P = new(A)"; Str.nl;
                 Str.tab; "*cp.P = *o.P"; Str.nl;
                 "}"; Str.nl],
        mkStore ∅
          [Warning ("WARNING: reached max depth 3. stop recursion at "
                    +:+ "example.com/v2/model.Root.P")]).
Proof. vm_compute. reflexivity. Qed.

(** ** The driver: errors *)

Lemma locateDefs_error (defs : list (option type)) (kind x e : string) :
  locateDefs defs kind x = inr e ->
  e = "type not found" /\ located defs kind x = [].
Proof.
  induction defs as [|[t|] defs IH]; cbn [locateDefs located]; intros H.
  - split; [congruence|reflexivity].
  - destruct (exprFilter t kind x); [discriminate|]. apply IH, H.
  - apply IH, H.
Qed.

Lemma locateDefs_found (defs : list (option type)) (kind x : string)
    (o : object) :
  locateDefs defs kind x = inl o -> In o (located defs kind x).
Proof.
  induction defs as [|[t|] defs IH]; cbn [locateDefs located]; intros H.
  - discriminate.
  - destruct (exprFilter t kind x) as [m|].
    + left. congruence.
    + apply IH, H.
  - apply IH, H.
Qed.

(** The first loop fails at the first type that is not found. *)
Lemma locateAll_not_found (ext : Externals) (types : list string)
    (p : PackageInfo) :
  (exists kind, In kind types /\ located (Defs p) kind (pName p) = []) ->
  exists kind,
    In kind types
    /\ located (Defs p) kind (pName p) = []
    /\ locateAll ext types p
       = inr (Str.cat ["locating type "; quote ext kind; " in ";
                       quote ext (pName p); ": "; "type not found"]).
Proof.
  induction types as [|k types IH]; intros [kind [Hin Hnone]];
    [destruct Hin|].
  cbn [locateAll]. unfold locateType.
  destruct (locateDefs (Defs p) k (pName p)) as [o|e] eqn:Hk.
  - destruct Hin as [->|Hin].
    + apply locateDefs_found in Hk. rewrite Hnone in Hk. destruct Hk.
    + destruct IH as [k' [Hin' [Hnone' Hall]]]; [exists kind; now split|].
      exists k'. rewrite Hall. repeat split; [now right|assumption].
  - apply locateDefs_error in Hk as [-> Hk].
    exists k. repeat split; [now left|assumption].
Qed.

(** C7: a hard error leaves the destination untouched. When a requested
    type is not found, [Generate] returns the error of the first such type
    and writes nothing; when the package has no syntax, it returns that
    error and writes nothing; when the formatter rejects the assembled
    text, nothing is written, whatever functions had been generated, and
    the error carries the diagnostic of the formatter and the text as it
    was handed over. The only error returned after a write is the one of
    the destination itself. *)
Theorem Generate_all_or_nothing
    (env : TypeEnv) (ext : Externals) (fuel : nat) (g : Generator)
    (types : list string) (p : PackageInfo) (st : Store) :
  ((exists kind, In kind types /\ located (Defs p) kind (pName p) = []) ->
   exists kind,
     In kind types
     /\ located (Defs p) kind (pName p) = []
     /\ Generate env ext fuel g types p st
        = Ok ([], Some (Str.cat ["locating type "; quote ext kind; " in ";
                                 quote ext (pName p); ": ";
                                 "type not found"]), st))
  /\ (forall objs,
        locateAll ext types p = inl objs ->
        Syntax p = [] ->
        Generate env ext fuel g types p st
        = Ok ([], Some ("getting receiver names: "
                        +:+ "packages.Package has no Syntax."), st))
  /\ (forall objs names g' st' diag,
        locateAll ext types p = inl objs ->
        getReceiverNames p = Ok (inl names) ->
        generateAll env fuel
          {| isPtrRecv := isPtrRecv g; maxDepth := maxDepth g;
             methodName := methodName g; skipLists := skipLists g;
             fns := fns g; receiverNames := names |}
          p 0 objs objs
          (mkStore (imports st) (events st ++ [PrintedReceivers names]))
        = Ok (g', st') ->
        formatSource ext (fileText ext g' p (imports st')) = inr diag ->
        Generate env ext fuel g types p st
        = Ok ([], Some ("generating file content: "
                        +:+ Str.cat ["error formatting source: "; diag;
                                     Str.nl; "source:"; Str.nl;
                                     fileText ext g' p (imports st')]), st'))
  /\ (forall written err st',
        Generate env ext fuel g types p st = Ok (written, Some err, st') ->
        written = []
        \/ exists b e,
             written = [b] /\ writeError ext b = Some e
             /\ err = "generating file content: " +:+ e).
Proof.
  split; [|split; [|split]].
  - intros H. destruct (locateAll_not_found ext types p H)
      as [kind [Hin [Hnone Hall]]].
    exists kind. repeat split; try assumption.
    unfold Generate. rewrite Hall. reflexivity.
  - intros objs Hobjs Hsyn. unfold Generate. rewrite Hobjs.
    unfold bind, getReceiverNames. rewrite Hsyn. reflexivity.
  - intros objs names g' st' diag Hobjs Hnames Hall Hfmt.
    unfold Generate. rewrite Hobjs. unfold bind at 1. rewrite Hnames.
    unfold bind at 1. unfold printf at 1. unfold bind at 1. rewrite Hall.
    unfold bind, generateFile. rewrite Hfmt. reflexivity.
  - intros written err st' H. unfold Generate in H.
    destruct (locateAll ext types p) as [objs|e].
    2:{ left. unfold ret in H. congruence. }
    unfold bind at 1 in H.
    destruct (getReceiverNames p) as [[names|e]| |]; try discriminate.
    2:{ left. unfold ret in H. congruence. }
    unfold bind at 1 in H. unfold printf at 1 in H. unfold bind at 1 in H.
    destruct (generateAll _ _ _ _ _ _ _ _) as [[g' s1]| |]; try discriminate.
    unfold bind, generateFile in H.
    destruct (formatSource ext _) as [b|diag].
    + destruct (writeError ext b) as [e|] eqn:Hw; unfold ret in H.
      * right. exists b, e. repeat split; congruence.
      * discriminate.
    + left. unfold ret in H. congruence.
Qed.

Lemma Generate_all_or_nothing_witness :
  (exists kind,
     In kind ["T"; "Missing"]
     /\ located (Defs Sample.pkg) kind (pName Sample.pkg) = []
     /\ Generate Sample.env Sample.extId 5 (Sample.gen 0) ["T"; "Missing"]
          Sample.pkg Sample.store0
        = Ok ([], Some (Str.cat ["locating type ";
                                 quote Sample.extId kind; " in ";
                                 quote Sample.extId (pName Sample.pkg); ": ";
                                 "type not found"]), Sample.store0))
  /\ Generate Sample.env Sample.extId 5 (Sample.gen 0) ["T"]
       Sample.pkgNoSyntax Sample.store0
     = Ok ([], Some ("getting receiver names: "
                     +:+ "packages.Package has no Syntax."), Sample.store0)
  /\ (exists diag text st',
        Generate Sample.env Sample.extReject 5 (Sample.gen 0) ["T"; "User"]
          Sample.pkg Sample.store0
        = Ok ([], Some ("generating file content: "
                        +:+ Str.cat ["error formatting source: "; diag;
                                     Str.nl; "source:"; Str.nl; text]), st')).
Proof.
  split; [|split].
  - apply (proj1 (Generate_all_or_nothing Sample.env Sample.extId 5
                    (Sample.gen 0) ["T"; "Missing"] Sample.pkg
                    Sample.store0)).
    exists "Missing". split; [right; left; reflexivity|reflexivity].
  - apply (proj1 (proj2 (Generate_all_or_nothing Sample.env Sample.extId 5
                           (Sample.gen 0) ["T"] Sample.pkgNoSyntax
                           Sample.store0)) [Sample.tT]); reflexivity.
  - eexists. eexists. eexists.
    eapply (proj1 (proj2 (proj2 (Generate_all_or_nothing Sample.env
                                   Sample.extReject 5 (Sample.gen 0)
                                   ["T"; "User"] Sample.pkg
                                   Sample.store0)))).
    + vm_compute. reflexivity.
    + vm_compute. reflexivity.
    + vm_compute. reflexivity.
    + reflexivity.
Defined.

(** ** The driver: determinism *)










(** The two orders of ranging over the import table of the witness give
    two texts. *)
Example import_order_shows_in_text :
  fileText (withRange Sample.extSum map_to_list) (Sample.gen 0)
    Sample.pkgTwo1
    {["other" := "example.com/other"; "third" := "example.com/third"]}
  <> fileText (withRange Sample.extSum (fun m => reverse (map_to_list m)))
       (Sample.gen 0) Sample.pkgTwo1
       {["other" := "example.com/other"; "third" := "example.com/third"]}.
Proof. vm_compute. intros H. discriminate H. Qed.


(** * Further properties *)

(** ** The receiver names *)

Lemma add_lookup_kept (vars : option (gmap string string))
    (key name k n : string) :
  lookupNames vars k = Some n -> lookupNames (add vars key name) k = Some n.
Proof.
  unfold add. destruct vars as [m|]; cbn [lookupNames]; [|discriminate].
  intros H. destruct (m !! key) eqn:Hkey; cbn [lookupNames]; [exact H|].
  destruct (decide (key = k)) as [->|Hne]; [congruence|].
  now rewrite lookup_insert_ne.
Qed.

Lemma add_lookup_new (vars : option (gmap string string)) (key name : string) :
  lookupNames vars key = None ->
  lookupNames (add vars key name) key = Some name.
Proof.
  unfold add. destruct vars as [m|]; cbn [lookupNames].
  - intros H. rewrite H. cbn [lookupNames]. apply lookup_insert_eq.
  - intros _. rewrite lookup_empty. cbn [lookupNames]. apply lookup_insert_eq.
Qed.

Lemma visitFuncDecl_named (vars : option (gmap string string))
    (n : string) (ns : list string) (e : Expr) (fl : list Field) (T : string) :
  recvTypeName e = Some T ->
  visitFuncDecl vars (FuncDecl (Some (mkField (n :: ns) e :: fl)))
  = Ok (add vars T n).
Proof.
  intros He. cbn [visitFuncDecl FieldType Names].
  destruct e as [t|[t| |]|]; cbn in He; try discriminate;
    injection He as ->; reflexivity.
Qed.

Lemma visitFuncDecl_unnamed (vars : option (gmap string string))
    (e : Expr) (fl : list Field) (T : string) :
  recvTypeName e = Some T ->
  visitFuncDecl vars (FuncDecl (Some (mkField [] e :: fl)))
  = Panic "index out of range [0] with length 0".
Proof.
  intros He. cbn [visitFuncDecl FieldType Names].
  destruct e as [t|[t| |]|]; cbn in He; try discriminate; reflexivity.
Qed.

Lemma visitFuncDecl_kept (vars vars' : option (gmap string string))
    (d : Decl) (k n : string) :
  lookupNames vars k = Some n ->
  visitFuncDecl vars d = Ok vars' ->
  lookupNames vars' k = Some n.
Proof.
  intros Hk. destruct d as [[[|fld fl]|]|]; cbn [visitFuncDecl];
    try discriminate; try (intros [= <-]; exact Hk).
  destruct (match FieldType fld with StarExpr x => x | e => e end);
    try (intros [= <-]; exact Hk).
  destruct (Names fld); [discriminate|].
  intros [= <-]. now apply add_lookup_kept.
Qed.

Lemma visitDecls_kept (ds : list Decl) :
  forall (vars vars' : option (gmap string string)) (k n : string),
    lookupNames vars k = Some n ->
    visitDecls vars ds = Ok vars' ->
    lookupNames vars' k = Some n.
Proof.
  induction ds as [|d ds IH]; intros vars vars' k n Hk; cbn [visitDecls].
  - intros [= <-]. exact Hk.
  - destruct (visitFuncDecl vars d) as [v| |] eqn:Hd; try discriminate.
    apply IH. exact (visitFuncDecl_kept vars v d k n Hk Hd).
Qed.

Lemma visitFiles_kept (fs : list File) :
  forall (vars vars' : option (gmap string string)) (k n : string),
    lookupNames vars k = Some n ->
    visitFiles vars fs = Ok vars' ->
    lookupNames vars' k = Some n.
Proof.
  induction fs as [|f fs IH]; intros vars vars' k n Hk; cbn [visitFiles].
  - intros [= <-]. exact Hk.
  - destruct (visitFile vars f) as [v| |] eqn:Hf; try discriminate.
    apply IH. unfold visitFile in Hf.
    destruct (isCodeGenerated f); [congruence|].
    exact (visitDecls_kept (Decls f) vars v k n Hk Hf).
Qed.

Lemma visitDecls_app (ds1 ds2 : list Decl) :
  forall vars : option (gmap string string),
    visitDecls vars (ds1 ++ ds2)%list
    = match visitDecls vars ds1 with
      | Ok v => visitDecls v ds2
      | Panic msg => Panic msg
      | OutOfFuel => OutOfFuel
      end.
Proof.
  induction ds1 as [|d ds1 IH]; intros vars; [reflexivity|].
  cbn [app visitDecls]. destruct (visitFuncDecl vars d); auto.
Qed.

Lemma visitFiles_app (fs1 fs2 : list File) :
  forall vars : option (gmap string string),
    visitFiles vars (fs1 ++ fs2)%list
    = match visitFiles vars fs1 with
      | Ok v => visitFiles v fs2
      | Panic msg => Panic msg
      | OutOfFuel => OutOfFuel
      end.
Proof.
  induction fs1 as [|f fs1 IH]; intros vars; [reflexivity|].
  cbn [app visitFiles]. destruct (visitFile vars f); auto.
Qed.

(** X1: the first receiver name met for a type is the one the table
    ends with. When the scan of the hand-written files comes to a method
    with a named receiver on a type that has no entry yet, the entry is
    set to that name, and no later method or file changes it. *)
Theorem receiver_name_first_wins
    (fs1 fs2 : list File) (f : File) (ds1 ds2 : list Decl)
    (n : string) (ns : list string) (e : Expr) (fl : list Field) (T : string)
    (vars0 vars1 vars' : option (gmap string string)) :
  visitFiles None fs1 = Ok vars0 ->
  isCodeGenerated f = false ->
  Decls f = (ds1 ++ FuncDecl (Some (mkField (n :: ns) e :: fl)) :: ds2)%list ->
  visitDecls vars0 ds1 = Ok vars1 ->
  recvTypeName e = Some T ->
  lookupNames vars1 T = None ->
  visitFiles None (fs1 ++ f :: fs2)%list = Ok vars' ->
  lookupNames vars' T = Some n.
Proof.
  intros H1 Hgen Hds Hd1 He Hnone Hall.
  rewrite visitFiles_app, H1 in Hall. cbn [visitFiles] in Hall.
  unfold visitFile in Hall. rewrite Hgen, Hds, visitDecls_app, Hd1 in Hall.
  cbn [visitDecls] in Hall. rewrite (visitFuncDecl_named _ _ _ _ _ T He) in Hall.
  destruct (visitDecls (add vars1 T n) ds2) as [v| |] eqn:Hd2;
    try discriminate.
  apply (visitFiles_kept fs2 v vars' T n); [|exact Hall].
  apply (visitDecls_kept ds2 (add vars1 T n) v T n); [|exact Hd2].
  now apply add_lookup_new.
Qed.

Lemma receiver_name_first_wins_witness :
  lookupNames
    (Some (<["User" := "u"]> (∅ : gmap string string))) "User" = Some "u".
Proof.
  apply (receiver_name_first_wins [] [Sample.file1] Sample.fileTwoNames
           [] [GenDecl; FuncDecl (Some [mkField ["usr"] (Ident "User")])]
           "u" [] (StarExpr (Ident "User")) [] "User" None None).
  - reflexivity.
  - reflexivity.
  - reflexivity.
  - reflexivity.
  - reflexivity.
  - reflexivity.
  - vm_compute. reflexivity.
Defined.

(** X2: a method whose receiver has no name, as in [func (T) M()], makes
    the receiver-name scan panic: in a hand-written file, once the
    declarations before it have been visited, [Visit] indexes the empty
    list of names, and [getReceiverNames] does not return. *)
Theorem getReceiverNames_unnamed_receiver_panics
    (pkg : PackageInfo) (fs1 fs2 : list File) (f : File)
    (ds1 ds2 : list Decl) (e : Expr) (fl : list Field) (T : string)
    (vars0 vars1 : option (gmap string string)) :
  Syntax pkg = (fs1 ++ f :: fs2)%list ->
  visitFiles None fs1 = Ok vars0 ->
  isCodeGenerated f = false ->
  Decls f = (ds1 ++ FuncDecl (Some (mkField [] e :: fl)) :: ds2)%list ->
  visitDecls vars0 ds1 = Ok vars1 ->
  recvTypeName e = Some T ->
  getReceiverNames pkg = Panic "index out of range [0] with length 0".
Proof.
  intros Hsyn H1 Hgen Hds Hd1 He. unfold getReceiverNames. rewrite Hsyn.
  destruct (fs1 ++ f :: fs2)%list as [|f0 fs0] eqn:Hfs;
    [destruct fs1; discriminate|].
  rewrite <- Hfs, visitFiles_app, H1. cbn [visitFiles].
  unfold visitFile. rewrite Hgen, Hds, visitDecls_app, Hd1.
  cbn [visitDecls]. rewrite (visitFuncDecl_unnamed _ _ _ T He). reflexivity.
Qed.

Lemma getReceiverNames_unnamed_receiver_panics_witness :
  getReceiverNames Sample.pkgUnnamed
  = Panic "index out of range [0] with length 0".
Proof.
  apply (getReceiverNames_unnamed_receiver_panics Sample.pkgUnnamed
           [Sample.file1] [] Sample.fileUnnamed [FuncDecl None] []
           (Ident "T") [] "T"
           (Some (<["User" := "u"]> ∅)) (Some (<["User" := "u"]> ∅))).
  - reflexivity.
  - vm_compute. reflexivity.
  - reflexivity.
  - reflexivity.
  - reflexivity.
  - reflexivity.
Defined.

(** ** Strings *)

Lemma append_assoc (a b c : string) : (a +:+ b) +:+ c = a +:+ (b +:+ c).
Proof.
  induction a as [|d a IH]; [reflexivity|].
  change (String d ((a +:+ b) +:+ c) = String d (a +:+ (b +:+ c))).
  f_equal. exact IH.
Qed.

Lemma length_append (a b : string) :
  String.length (a +:+ b) = (String.length a + String.length b)%nat.
Proof.
  induction a as [|d a IH]; [reflexivity|].
  change (S (String.length (a +:+ b))
          = S (String.length a + String.length b)%nat).
  f_equal. exact IH.
Qed.

Lemma prefix_append (a b : string) : String.prefix a (a +:+ b) = true.
Proof.
  induction a as [|d a IH]; [destruct b; reflexivity|].
  change (String.prefix (String d a) (String d (a +:+ b)) = true).
  cbn [String.prefix]. destruct (ascii_dec d d); [exact IH|contradiction].
Qed.

Lemma rev_string_append (a b : string) :
  Str.rev_string (a +:+ b) = Str.rev_string b +:+ Str.rev_string a.
Proof.
  induction a as [|d a IH].
  - cbn. now rewrite append_empty_r.
  - change (Str.rev_string (a +:+ b) +:+ String d ""
            = Str.rev_string b +:+ (Str.rev_string a +:+ String d "")).
    rewrite IH. apply append_assoc.
Qed.

Lemma hasSuffix_append (a b : string) : Str.hasSuffix (a +:+ b) b = true.
Proof.
  unfold Str.hasSuffix. rewrite rev_string_append. apply prefix_append.
Qed.

Lemma substring_skip (a b : string) (n : nat) :
  String.substring (String.length a) n (a +:+ b) = String.substring 0 n b.
Proof. induction a as [|d a IH]; [reflexivity|exact IH]. Qed.

Lemma substring_take (a b : string) :
  String.substring 0 (String.length a) (a +:+ b) = a.
Proof.
  induction a as [|d a IH].
  - destruct b; reflexivity.
  - change (String d (String.substring 0 (String.length a) (a +:+ b))
            = String d a).
    f_equal. exact IH.
Qed.

Lemma noNewline_append (a b : string) :
  Str.noNewline (a +:+ b) = Str.noNewline a && Str.noNewline b.
Proof.
  induction a as [|d a IH]; [reflexivity|].
  change (negb (Ascii.eqb d (ascii_of_nat 10)) && Str.noNewline (a +:+ b)
          = negb (Ascii.eqb d (ascii_of_nat 10)) && Str.noNewline a
            && Str.noNewline b).
  rewrite IH. now rewrite andb_assoc.
Qed.

(** ** The marker of generated files *)

(** The expression of [patAutoGen] matches the marker around any text
    that has no line break. *)
Lemma patAutoGen_marker (mid : string) :
  Str.noNewline mid = true ->
  patAutoGen ("// Code generated " +:+ (mid +:+ " DO NOT EDIT.")) = true.
Proof.
  intros Hmid. unfold patAutoGen. cbv zeta.
  unfold Str.hasPrefix. rewrite prefix_append. cbn [andb].
  rewrite <- append_assoc, hasSuffix_append. cbn [andb].
  rewrite append_assoc.
  rewrite substring_skip.
  rewrite !length_append.
  replace (String.length "// Code generated "
           + (String.length mid + String.length " DO NOT EDIT.")
           - String.length "// Code generated "
           - String.length " DO NOT EDIT.")%nat
    with (String.length mid) by lia.
  rewrite substring_take, Hmid, andb_true_r.
  apply Nat.leb_le. lia.
Qed.

(** X3: what the generator writes it recognises. The text of
    [generateFile] begins with a line that matches the marker of generated
    files, as long as the command line has no line break; the receiver
    scan does not enter a file that carries this line, and leaves the
    table as it was. *)
Theorem generated_file_is_skipped
    (ext : Externals) (p : PackageInfo)
    (vars : option (gmap string string))
    (comments : list (list string)) (decls : list Decl) :
  Str.noNewline (Str.join (osArgs ext) " ") = true ->
  (exists rest, fileHeader ext p = generatedLine ext +:+ Str.nl +:+ rest)
  /\ patAutoGen (generatedLine ext) = true
  /\ visitFile vars (mkFile ([generatedLine ext] :: comments) decls) = Ok vars.
Proof.
  intros Hargs.
  assert (Hpat : patAutoGen (generatedLine ext) = true).
  { unfold generatedLine. cbn [Str.cat].
    replace ("// Code generated by "
             +:+ Str.join (osArgs ext) " " +:+ "; DO NOT EDIT." +:+ "")
      with ("// Code generated "
            +:+ (("by " +:+ Str.join (osArgs ext) " " +:+ ";")
                 +:+ " DO NOT EDIT.")).
    - apply patAutoGen_marker.
      rewrite !noNewline_append, Hargs. reflexivity.
    - rewrite !append_assoc. reflexivity. }
  split; [|split; [exact Hpat|]].
  - eexists. unfold fileHeader, generatedLine. cbn [Str.cat].
    rewrite !append_assoc. reflexivity.
  - unfold visitFile, isCodeGenerated. cbn [Comments existsb].
    rewrite Hpat. reflexivity.
Qed.

Lemma generated_file_is_skipped_witness :
  (exists rest,
     fileHeader Sample.extId Sample.pkg
     = generatedLine Sample.extId +:+ Str.nl +:+ rest)
  /\ patAutoGen (generatedLine Sample.extId) = true
  /\ visitFile None
       (mkFile ([generatedLine Sample.extId] :: [])
          [FuncDecl (Some [mkField [] (Ident "T")])])
     = Ok None.
Proof. apply generated_file_is_skipped. reflexivity. Defined.

(** ** The temporaries *)

Lemma selToIdent_append (a b : string) :
  selToIdent (a +:+ b) = selToIdent a +:+ selToIdent b.
Proof.
  unfold selToIdent. induction a as [|d a IH]; [reflexivity|].
  change (Str.dropRBrackets (String d a +:+ b))
    with (if Ascii.eqb d Str.rbracket then Str.dropRBrackets (a +:+ b)
          else String d (Str.dropRBrackets (a +:+ b))).
  change (Str.dropRBrackets (String d a))
    with (if Ascii.eqb d Str.rbracket then Str.dropRBrackets a
          else String d (Str.dropRBrackets a)).
  destruct (Ascii.eqb d Str.rbracket); [exact IH|].
  cbn [Str.map]. rewrite IH. reflexivity.
Qed.

Lemma selToIdent_no_special (sel : string) :
  hasChar Str.dot (selToIdent sel) = false
  /\ hasChar Str.lbracket (selToIdent sel) = false
  /\ hasChar Str.rbracket (selToIdent sel) = false.
Proof.
  unfold selToIdent. induction sel as [|d sel [IH1 [IH2 IH3]]];
    [repeat split; reflexivity|].
  change (Str.dropRBrackets (String d sel))
    with (if Ascii.eqb d Str.rbracket then Str.dropRBrackets sel
          else String d (Str.dropRBrackets sel)).
  destruct (Ascii.eqb d Str.rbracket) eqn:Hr; [repeat split; assumption|].
  cbn [Str.map hasChar]. rewrite IH1, IH2, IH3, !orb_false_r.
  destruct (Ascii.eqb d Str.lbracket) eqn:Hl; cbn [orb];
    [repeat split; reflexivity|].
  destruct (Ascii.eqb d Str.dot) eqn:Hd; [repeat split; reflexivity|].
  repeat split; assumption.
Qed.

(** X4: an identifier made by [selToIdent] has no dot and no bracket. *)
Theorem selToIdent_flat (sel : string) :
  hasChar Str.dot (selToIdent sel) = false
  /\ hasChar Str.lbracket (selToIdent sel) = false
  /\ hasChar Str.rbracket (selToIdent sel) = false.
Proof. apply selToIdent_no_special. Qed.

(** X5: [selToIdent] works piece by piece, and a dot, an opening bracket
    and an underscore all come out as an underscore while a closing
    bracket is dropped: the selectors [a.b], [a[b]] and [a_b] give one
    identifier. *)
Theorem selToIdent_conflates (a b : string) :
  selToIdent (a +:+ "." +:+ b) = selToIdent a +:+ "_" +:+ selToIdent b
  /\ selToIdent (a +:+ "[" +:+ b +:+ "]")
     = selToIdent a +:+ "_" +:+ selToIdent b
  /\ selToIdent (a +:+ "_" +:+ b) = selToIdent a +:+ "_" +:+ selToIdent b.
Proof.
  repeat split; rewrite !selToIdent_append; try reflexivity.
  change (selToIdent "]") with "". now rewrite append_empty_r.
Qed.

(** ** The location of the target types *)

Lemma reducePointer_oneLayerOf (t : type) (o : object) :
  asObject (fst (reducePointer t)) = Some o <-> oneLayerOf t o.
Proof.
  unfold oneLayerOf. split.
  - destruct t as [n|o0|e|e|n e|d e|k e|fs]; cbn; try discriminate;
      try (destruct e; cbn; try discriminate); intros [= ->]; eauto 10.
  - intros [->|[->|[->|[[n ->]|[[d ->]|[k ->]]]]]]; reflexivity.
Qed.

Lemma exprFilter_Some (t : type) (sel x : string) (o : object) :
  exprFilter t sel x = Some o ->
  oneLayerOf t o
  /\ Name o = sel
  /\ exists pk, Pkg o = Some pk /\ PkgName pk = x.
Proof.
  unfold exprFilter, objFromType.
  destruct (asObject (fst (reducePointer t))) as [obj|] eqn:Hobj;
    [|discriminate].
  apply reducePointer_oneLayerOf in Hobj.
  destruct (Pkg obj) as [pk|] eqn:Hpk; [|discriminate].
  destruct (String.eqb x (PkgName pk)) eqn:Hx; cbn [negb orb];
    [|discriminate].
  destruct (String.eqb sel (Name obj)) eqn:Hs; cbn [negb]; [|discriminate].
  intros [= <-]. apply String.eqb_eq in Hx, Hs.
  split; [exact Hobj|]. split; [now symmetry|].
  exists pk. split; [exact Hpk|now symmetry].
Qed.

Lemma exprFilter_matches (t : type) (o : object) (pk : Package)
    (sel x : string) :
  Pkg o = Some pk -> PkgName pk = x -> Name o = sel ->
  oneLayerOf t o ->
  exprFilter t sel x = Some o.
Proof.
  intros Hpk <- <- Ht. apply reducePointer_oneLayerOf in Ht.
  unfold exprFilter, objFromType. rewrite Ht, Hpk, !String.eqb_refl.
  reflexivity.
Qed.

Lemma located_In (defs : list (option type)) (kind x : string) (o : object) :
  In o (located defs kind x) <->
  exists t, In (Some t) defs /\ exprFilter t kind x = Some o.
Proof.
  induction defs as [|[t|] defs IH]; cbn [located].
  - split; [intros []|intros [t [[] _]]].
  - destruct (exprFilter t kind x) as [m|] eqn:Ht.
    + split.
      * intros [<-|Hin]; [exists t; split; [now left|exact Ht]|].
        apply IH in Hin as [t' [Hin Ht']]. exists t'. split; [now right|exact Ht'].
      * intros [t' [[Heq|Hin] Ht']].
        -- injection Heq as <-. left. congruence.
        -- right. apply IH. now exists t'.
    + rewrite IH. split; intros [t' [Hin Ht']]; exists t'.
      * split; [now right|exact Ht'].
      * destruct Hin as [Heq|Hin]; [injection Heq as <-; congruence|].
        now split.
  - rewrite IH. split; intros [t' [Hin Ht']]; exists t'.
    + split; [now right|exact Ht'].
    + destruct Hin as [Heq|Hin]; [discriminate|now split].
Qed.

(** X6: the object [locateType] returns has the name asked for, belongs
    to a package with the name of the package under generation, and is
    the type of one of its definitions, or the element type of the
    pointer, slice, array, channel or map type of one. *)
Theorem locateType_sound (kind : string) (p : PackageInfo) (o : object) :
  locateType kind p = inl o ->
  Name o = kind
  /\ (exists pk, Pkg o = Some pk /\ PkgName pk = pName p)
  /\ exists t, In (Some t) (Defs p) /\ oneLayerOf t o.
Proof.
  intros H. apply locateDefs_found, located_In in H as [t [Hin Ht]].
  apply exprFilter_Some in Ht as [Hlayer [Hn Hp]]. eauto.
Qed.

Lemma locateType_sound_witness :
  Name Sample.tTwo = "Two"
  /\ (exists pk, Pkg Sample.tTwo = Some pk
                 /\ PkgName pk = pName Sample.pkgTwo1)
  /\ exists t, In (Some t) (Defs Sample.pkgTwo1) /\ oneLayerOf t Sample.tTwo.
Proof.
  apply (locateType_sound "Two" Sample.pkgTwo1 Sample.tTwo). reflexivity.
Defined.

(** X7: [locateType] reports that the type is not found exactly when no
    definition of the package has for its type a named type with the name
    asked for in a package with the name of the package under generation,
    or a pointer, slice, array, channel or map with such an element type;
    the error is then [type not found]. *)
Theorem locateType_error_iff (kind : string) (p : PackageInfo) :
  (locateType kind p = inr "type not found" <->
   forall o pk t,
     Pkg o = Some pk -> PkgName pk = pName p -> Name o = kind ->
     oneLayerOf t o -> ~ In (Some t) (Defs p))
  /\ forall e, locateType kind p = inr e -> e = "type not found".
Proof.
  split; [split|].
  - intros H o pk t Hpk Hname Hkind Hlayer Hin.
    apply locateDefs_error in H as [_ Hnil].
    assert (Ho : In o (located (Defs p) kind (pName p))).
    { apply located_In. exists t. split; [exact Hin|].
      exact (exprFilter_matches t o pk kind (pName p) Hpk Hname Hkind
               Hlayer). }
    rewrite Hnil in Ho. destruct Ho.
  - intros H. unfold locateType.
    destruct (locateDefs (Defs p) kind (pName p)) as [o|e] eqn:Hl.
    + exfalso. apply locateDefs_found, located_In in Hl as [t [Hin Ht]].
      apply exprFilter_Some in Ht as [Ht [Hn [pk [Hpk Hx]]]].
      exact (H o pk t Hpk Hx Hn Ht Hin).
    + apply locateDefs_error in Hl as [-> _]. reflexivity.
  - intros e H. now apply locateDefs_error in H as [-> _].
Qed.

(** ** What the walk does to the store *)

Section StepKeeps.

Variable env : TypeEnv.
Variable g : Generator.
Variable R : Store -> Store -> Prop.

Hypothesis R_refl : forall s, R s s.
Hypothesis R_trans : forall s1 s2 s3, R s1 s2 -> R s2 s3 -> R s1 s3.
Hypothesis R_getElemType : forall t x, keeps R (getElemType t x).
Hypothesis R_cutoff :
  forall sink generating depth,
    cutoffApplies g depth = true -> keeps R (cutoff sink generating depth).

Lemma keeps_ret {A} (a : A) : keeps R (ret a).
Proof. intros s a' s' [= _ <-]. apply R_refl. Qed.

Lemma keeps_bind {A B} (m : M A) (k : A -> M B) :
  keeps R m -> (forall a, keeps R (k a)) -> keeps R (bind m k).
Proof.
  intros Hm Hk s b s'. unfold bind.
  destruct (m s) as [[a s1]| |] eqn:E; try discriminate.
  intros H. eapply R_trans; [exact (Hm s a s1 E)|exact (Hk a s1 b s' H)].
Qed.

Variable self : walker.
Hypothesis self_keeps :
  forall source sink x m sk generating depth,
    keeps R (self source sink x m sk generating depth).

Lemma keeps_walkFields source sink x needExported fields sk generating depth :
  keeps R (walkFields self source sink x needExported fields sk generating
             depth).
Proof.
  induction fields as [|[fname ftype fexported] rest IH]; cbn [walkFields];
    [apply keeps_ret|].
  apply keeps_bind.
  - destruct (needExported && negb fexported); [apply keeps_ret|].
    case_bool_decide; [apply keeps_ret|apply self_keeps].
  - intros out. apply keeps_bind; [exact IH|intros; apply keeps_ret].
Qed.

Lemma keeps_walkShape source sink x under needExported sk generating depth
    initial :
  keeps R (walkShape env g self source sink x under needExported sk
             generating depth initial).
Proof.
  destruct under; cbn [walkShape]; try apply keeps_ret.
  - unfold walkPointer.
    destruct (match asMethoder under with
              | Some e => if initial then ("", false)
                          else reuseDeepCopy env g source sink e true
                                 generating
              | None => ("", false)
              end) as [w2 reused].
    apply keeps_bind; [|intros; apply keeps_ret].
    destruct reused; cbn [negb]; [apply keeps_ret|].
    apply keeps_bind; [apply R_getElemType|intros kind].
    apply keeps_bind; [apply self_keeps|intros; apply keeps_ret].
  - unfold walkSlice.
    apply keeps_bind; [apply R_getElemType|intros kind].
    apply keeps_bind; [|intros; apply keeps_ret].
    destruct (negb _); [apply self_keeps|apply keeps_ret].
  - unfold walkChan.
    apply keeps_bind; [apply R_getElemType|intros; apply keeps_ret].
  - unfold walkMap.
    apply keeps_bind; [apply R_getElemType|intros kkind].
    apply keeps_bind; [apply R_getElemType|intros vkind].
    destruct (mapSkips sk _) as [skipKey skipValue].
    apply keeps_bind.
    { destruct (negb skipKey); [|apply keeps_ret].
      apply keeps_bind; [apply self_keeps|intros b].
      destruct (_ <? _)%nat; apply keeps_ret. }
    intros kres. apply keeps_bind.
    { destruct (negb skipValue); [|apply keeps_ret].
      apply keeps_bind; [apply self_keeps|intros b].
      destruct (_ <? _)%nat; apply keeps_ret. }
    intros vres. destruct kres, vres. apply keeps_ret.
  - apply keeps_walkFields.
Qed.

Lemma keeps_walkStep source sink x m sk generating depth :
  keeps R (walkStep env g self source sink x m sk generating depth).
Proof.
  unfold walkStep. destruct m as [t|]; [|apply keeps_ret].
  fold (cutoffApplies g depth).
  destruct (cutoffApplies g depth) eqn:Hcut; [now apply R_cutoff|].
  destruct (match asMethoder t with
            | Some v => if negb (depth =? 0)
                        then reuseDeepCopy env g source sink v false
                               generating
                        else ("", false)
            | None => ("", false)
            end) as [w1 reused].
  destruct reused; [apply keeps_ret|].
  apply keeps_bind; [apply keeps_walkShape|intros; apply keeps_ret].
Qed.

End StepKeeps.

Lemma keeps_walkType
    (env : TypeEnv) (g : Generator) (R : Store -> Store -> Prop) :
  (forall s, R s s) ->
  (forall s1 s2 s3, R s1 s2 -> R s2 s3 -> R s1 s3) ->
  (forall t x, keeps R (getElemType t x)) ->
  (forall sink generating depth,
     cutoffApplies g depth = true -> keeps R (cutoff sink generating depth)) ->
  forall fuel source sink x m sk generating depth,
    keeps R (walkType env g fuel source sink x m sk generating depth).
Proof.
  intros Hrefl Htrans Hget Hcut. induction fuel as [|fuel IH];
    intros source sink x m sk generating depth.
  - intros s a s'. discriminate.
  - cbn [walkType]. now apply keeps_walkStep.
Qed.

(** X8: with no positive maximum depth the walk logs nothing: whatever
    the type, the depth and the fuel, a walk that returns leaves the
    events of the store as they were, no warning among them. *)
Theorem walkType_silent_without_maximum
    (env : TypeEnv) (g : Generator) (fuel : nat)
    (source sink x : string) (m : option type) (sk : skips)
    (generating : list object) (depth : Z) (st st' : Store) (out : string) :
  maxDepth g <= 0 ->
  walkType env g fuel source sink x m sk generating depth st = Ok (out, st') ->
  events st' = events st.
Proof.
  intros Hmax H.
  apply (keeps_walkType env g (fun s s' => events s' = events s))
    with (fuel := fuel) (source := source) (sink := sink) (x := x) (m := m)
         (sk := sk) (generating := generating) (depth := depth) (a := out);
    try exact H.
  - reflexivity.
  - intros s1 s2 s3 H12 H23. congruence.
  - intros t y s a s'. rewrite getElemType_ok. intros [= _ <-]. reflexivity.
  - intros snk gen d Hcut.
    rewrite (cutoff_never_without_maximum g d Hmax) in Hcut. discriminate.
Qed.

Lemma walkType_silent_without_maximum_witness :
  exists out st',
    walkType Sample.env (Sample.gen 0) 6 "o" "cp" "model"
      (Some (Named Sample.tUser)) ∅ [Sample.tUser] 0 Sample.store0
    = Ok (out, st')
    /\ events st' = events Sample.store0.
Proof.
  eexists. eexists. split.
  - vm_compute. reflexivity.
  - eapply (walkType_silent_without_maximum Sample.env (Sample.gen 0) 6
              "o" "cp" "model" (Some (Named Sample.tUser)) ∅ [Sample.tUser] 0
              Sample.store0).
    + vm_compute. discriminate.
    + vm_compute. reflexivity.
Defined.

(** ** The import table *)

Section TypeStringKeeps.

Context {S : Type}.
Variable qf : Package -> S -> string * S.
Variable R : S -> S -> Prop.
Hypothesis R_refl : forall s, R s s.
Hypothesis R_trans : forall s1 s2 s3, R s1 s2 -> R s2 s3 -> R s1 s3.
Hypothesis R_qf : forall p s, R s (snd (qf p s)).

(** Whatever relation the qualifier keeps, the printing of a type keeps. *)
Lemma TypeString_keeps : forall (t : type) (s : S),
  R s (snd (TypeString qf t s)).
Proof.
  fix IH 1. intros [n|o|e|e|n e|d e|k e|fs] s; cbn [TypeString].
  - apply R_refl.
  - destruct (Pkg o) as [p|]; [|apply R_refl].
    specialize (R_qf p s). destruct (qf p s) as [q s']. exact R_qf.
  - specialize (IH e s). destruct (TypeString qf e s). exact IH.
  - specialize (IH e s). destruct (TypeString qf e s). exact IH.
  - specialize (IH e s). destruct (TypeString qf e s). exact IH.
  - specialize (IH e s). destruct (TypeString qf e s). exact IH.
  - pose proof (IH k s) as Hk. destruct (TypeString qf k s) as [rk s1].
    pose proof (IH e s1) as He. destruct (TypeString qf e s1) as [re s2].
    exact (R_trans _ _ _ Hk He).
  - match goal with
    | |- R s (snd (let '(r, s') := ?f true fs s in _)) =>
        assert (Hf : forall first l s0, R s0 (snd (f first l s0)))
    end.
    { intros first l. revert first.
      induction l as [|[n ty x] rest IHl]; intros first s0.
      - apply R_refl.
      - cbn. pose proof (IH ty s0) as Hty.
        destruct (TypeString qf ty s0) as [rt s1].
        specialize (IHl false s1).
        match goal with
        | |- context [let '(rr, s2) := ?call in _] =>
            destruct call as [rr s2]
        end.
        exact (R_trans _ _ _ Hty IHl). }
    specialize (Hf true fs s).
    match goal with
    | |- R s (snd (let '(r, s') := ?call in _)) => destruct call as [r s']
    end.
    exact Hf.
Qed.

End TypeStringKeeps.

Lemma qualifier_dom (x : string) (p : Package) (imps : gmap string string) :
  dom imps ⊆ dom (snd (qualifier x p imps)).
Proof.
  unfold qualifier. destruct (negb (String.eqb (PkgName p) x)); cbn [snd];
    [|reflexivity].
  rewrite dom_insert. set_solver.
Qed.

(** X9: the alias [getElemType] writes for a package other than the one
    under generation is bound to the path of that package in the import
    table it leaves. The alias is the package name, unless that name is
    taken by another path: then it is the sanitized path, and the entry
    of the name stays as it was (as long as the two spellings differ). The
    package under generation gets no qualifier and no entry. *)
Theorem qualifier_binds_alias
    (x : string) (p : Package) (imps : gmap string string) :
  (PkgName p = x -> qualifier x p imps = ("", imps))
  /\ (PkgName p <> x ->
      snd (qualifier x p imps) !! fst (qualifier x p imps) = Some (Path p)
      /\ (forall k, k <> fst (qualifier x p imps) ->
                    snd (qualifier x p imps) !! k = imps !! k)
      /\ (imps !! PkgName p = None \/ imps !! PkgName p = Some (Path p) ->
          fst (qualifier x p imps) = PkgName p)
      /\ (forall path, imps !! PkgName p = Some path -> path <> Path p ->
            fst (qualifier x p imps) = Str.sanitize (Path p))).
Proof.
  unfold qualifier. split.
  - intros ->. now rewrite String.eqb_refl.
  - intros Hne. apply String.eqb_neq in Hne. rewrite Hne. cbn [negb fst snd].
    split; [apply lookup_insert_eq|].
    split; [intros k Hk; now rewrite lookup_insert_ne|].
    split.
    + intros [H|H]; rewrite H; [reflexivity|].
      now rewrite String.eqb_refl.
    + intros path H Hpath. rewrite H.
      apply String.eqb_neq in Hpath. now rewrite Hpath.
Qed.

Lemma qualifier_binds_alias_witness :
  (PkgName Sample.legacy = "other" ->
   qualifier "other" Sample.legacy {["model" := "example.com/v2/model"]}
   = ("", {["model" := "example.com/v2/model"]}))
  /\ (PkgName Sample.legacy <> "other" ->
      snd (qualifier "other" Sample.legacy
             {["model" := "example.com/v2/model"]})
        !! fst (qualifier "other" Sample.legacy
                  {["model" := "example.com/v2/model"]})
      = Some (Path Sample.legacy)
      /\ (forall k,
            k <> fst (qualifier "other" Sample.legacy
                        {["model" := "example.com/v2/model"]}) ->
            snd (qualifier "other" Sample.legacy
                   {["model" := "example.com/v2/model"]}) !! k
            = ({["model" := "example.com/v2/model"]}
                 : gmap string string) !! k)
      /\ (({["model" := "example.com/v2/model"]} : gmap string string)
            !! PkgName Sample.legacy = None
          \/ ({["model" := "example.com/v2/model"]} : gmap string string)
               !! PkgName Sample.legacy = Some (Path Sample.legacy) ->
          fst (qualifier "other" Sample.legacy
                 {["model" := "example.com/v2/model"]})
          = PkgName Sample.legacy)
      /\ (forall path,
            ({["model" := "example.com/v2/model"]} : gmap string string)
              !! PkgName Sample.legacy = Some path ->
            path <> Path Sample.legacy ->
            fst (qualifier "other" Sample.legacy
                   {["model" := "example.com/v2/model"]})
            = Str.sanitize (Path Sample.legacy))).
Proof.
  apply (qualifier_binds_alias "other" Sample.legacy
           {["model" := "example.com/v2/model"]}).
Defined.

(** X10: a walk that returns has removed no alias from the import table
    and has only added to the log. *)
Theorem walkType_store_grows
    (env : TypeEnv) (g : Generator) (fuel : nat)
    (source sink x : string) (m : option type) (sk : skips)
    (generating : list object) (depth : Z) (st st' : Store) (out : string) :
  walkType env g fuel source sink x m sk generating depth st = Ok (out, st') ->
  dom (imports st) ⊆ dom (imports st')
  /\ exists more, events st' = (events st ++ more)%list.
Proof.
  intros H.
  apply (keeps_walkType env g
           (fun s s' => dom (imports s) ⊆ dom (imports s')
                        /\ exists more, events s' = (events s ++ more)%list))
    with (fuel := fuel) (source := source) (sink := sink) (x := x) (m := m)
         (sk := sk) (generating := generating) (depth := depth) (a := out);
    try exact H.
  - intros s. split; [reflexivity|]. exists []. now rewrite app_nil_r.
  - intros s1 s2 s3 [Hd1 [m1 He1]] [Hd2 [m2 He2]]. split; [set_solver|].
    exists (m1 ++ m2)%list. rewrite He2, He1. now rewrite app_assoc.
  - intros t y s a s'. rewrite getElemType_ok. intros [= _ <-]. cbn.
    split; [|exists []; now rewrite app_nil_r].
    apply (TypeString_keeps (qualifier y)
             (fun a b : gmap string string => dom a ⊆ dom b)).
    + intros i. reflexivity.
    + intros a1 a2 a3 H1 H2. set_solver.
    + intros p s0. apply qualifier_dom.
  - intros snk gen d _ s a s'. unfold cutoff.
    destruct gen; [discriminate|].
    destruct (_ <? _)%nat; [discriminate|].
    unfold bind, logPrintf, ret. intros [= _ <-]. cbn.
    split; [reflexivity|]. eexists. reflexivity.
Qed.

Lemma walkType_store_grows_witness :
  exists out st',
    walkType Sample.env (Sample.gen 0) 6 "o" "cp" "model"
      (Some (Named Sample.tUser)) ∅ [Sample.tUser] 0 Sample.store0
    = Ok (out, st')
    /\ dom (imports Sample.store0) ⊆ dom (imports st')
    /\ exists more, events st' = (events Sample.store0 ++ more)%list.
Proof.
  eexists. eexists. split.
  - vm_compute. reflexivity.
  - eapply (walkType_store_grows Sample.env (Sample.gen 0) 6
              "o" "cp" "model" (Some (Named Sample.tUser)) ∅ [Sample.tUser] 0
              Sample.store0).
    vm_compute. reflexivity.
Defined.

(** ** The struct and the slice case *)

Lemma walkFields_filter_exported
    (self : walker) (source sink x : string) (fields : list Var)
    (sk : skips) (generating : list object) (depth : Z) (st : Store) :
  walkFields self source sink x true fields sk generating depth st
  = walkFields self source sink x false (List.filter varExported fields) sk
      generating depth st.
Proof.
  revert st. induction fields as [|[fname ftype fexported] rest IH];
    intros st; [reflexivity|].
  cbn [List.filter varExported]. destruct fexported.
  - cbn [walkFields andb negb]. unfold bind.
    destruct (if bool_decide _ then _ else _) as [[out s1]| |];
      try reflexivity.
    rewrite IH. reflexivity.
  - cbn [walkFields andb negb]. unfold bind at 1. cbn [ret].
    rewrite <- IH.
    apply (bind_ret_r
             (walkFields self source sink x true rest sk generating depth) st).
Qed.

(** X11: when the walker comes to a named struct type, past the cutoff
    and the reuse check, the fields it walks are decided by the name of
    the package of the type: when that name is not the name of the
    package under generation, the fields that are not exported are passed
    over, and the walk is the walk of the exported fields alone, with the
    same calls in the same order; when the name is the same, be it another
    package of that name, all the fields are walked. *)
Theorem walkStep_struct_fields_by_package_name
    (env : TypeEnv) (g : Generator) (self : walker)
    (source sink x : string) (v : TypeName) (pk : Package)
    (fields : list Var) (sk : skips) (generating : list object) (depth : Z)
    (st : Store) :
  Pkg v = Some pk ->
  underlying (env v) = Struct fields ->
  cutoffApplies g depth = false ->
  depth = 0 \/ fst (hasDeepCopy env g v generating) = false ->
  walkStep env g self source sink x (Some (Named v)) sk generating depth st
  = walkFields self source sink x false
      (if String.eqb (PkgName pk) x then fields
       else List.filter varExported fields)
      sk generating (depth + 1) st.
Proof.
  intros Hpk Hunder Hcut Hreuse. unfold walkStep.
  fold (cutoffApplies g depth). rewrite Hcut, Hpk.
  cbn [asMethoder Underlying]. rewrite Hunder.
  assert (Hno : (if negb (depth =? 0)
                 then reuseDeepCopy env g source sink v false generating
                 else ("", false)) = ("", false)).
  { destruct (depth =? 0) eqn:Hd; cbn [negb]; [reflexivity|].
    destruct Hreuse as [->|Hf]; [discriminate|].
    rewrite reuseDeepCopy_spec, Hf. reflexivity. }
  rewrite Hno. cbn [walkShape].
  rewrite (bind_ret_r (walkFields self source sink x _ fields sk generating
                         (depth + 1)) st).
  destruct (String.eqb (PkgName pk) x); cbn [negb]; [reflexivity|].
  apply walkFields_filter_exported.
Qed.

Lemma walkStep_struct_fields_by_package_name_witness :
  walkStep Sample.env (Sample.gen 0) (walkType Sample.env (Sample.gen 0) 2)
    "o.O[i2]" "cp.O[i2]" "model" (Some (Named Sample.tO)) ∅ [Sample.tUser] 2
    Sample.store0
  = walkFields (walkType Sample.env (Sample.gen 0) 2) "o.O[i2]" "cp.O[i2]"
      "model" false [mkVar "C" (Chan SendRecv Sample.int) true] ∅
      [Sample.tUser] (2 + 1) Sample.store0.
Proof.
  apply (walkStep_struct_fields_by_package_name Sample.env (Sample.gen 0)
           (walkType Sample.env (Sample.gen 0) 2) "o.O[i2]" "cp.O[i2]"
           "model" Sample.tO Sample.other
           [mkVar "c" (Chan SendRecv Sample.int) false;
            mkVar "C" (Chan SendRecv Sample.int) true]).
  - reflexivity.
  - reflexivity.
  - reflexivity.
  - right. vm_compute. reflexivity.
Defined.

Lemma hasDot_append (a b : string) :
  Str.hasDot (a +:+ b) = Str.hasDot a || Str.hasDot b.
Proof.
  induction a as [|d a IH]; [reflexivity|].
  change (Ascii.eqb d Str.dot || Str.hasDot (a +:+ b)
          = Ascii.eqb d Str.dot || Str.hasDot a || Str.hasDot b).
  rewrite IH. now rewrite orb_assoc.
Qed.

Lemma afterFirstDot_shorter (s : string) :
  Str.hasDot s = true ->
  (String.length (Str.afterFirstDot s) < String.length s)%nat.
Proof.
  induction s as [|d s IH]; [discriminate|].
  cbn [Str.hasDot Str.afterFirstDot String.length].
  destruct (Ascii.eqb d Str.dot); cbn [orb]; [lia|].
  intros H. specialize (IH H). lia.
Qed.

(** X12: for a slice below the root the selector looked up in the skip
    set is the whole sink path followed by [[i]], with its root: when it
    is in the skip set the elements are not walked, the text is the
    allocation and the shallow copy. The selector relative to the root,
    which is what a struct field and a map are looked up by, does not
    skip the elements of a slice: with that entry alone the walker is
    still called on the element. *)
Theorem walkSlice_selector_with_root
    (self : walker) (source sink x : string) (elem : type)
    (sk : skips) (generating : list object) (depth : Z) (st : Store) :
  (Contains sk (sink +:+ "[i]") = true ->
   walkSlice self source sink x elem sk generating depth false st
   = bind (getElemType elem x) (fun kind =>
     ret (Str.cat (sliceOpen source sink kind ++ ["}"; Str.nl]))) st)
  /\ (Str.hasDot sink = true ->
      sk = {[Str.dropThroughDot (sink +:+ "[i]")]} ->
      walkSlice self source sink x elem sk generating depth false st
      = bind (getElemType elem x) (fun kind =>
        bind (self (source +:+ "[" +:+ sliceIdx depth +:+ "]")
                   (sink +:+ "[" +:+ sliceIdx depth +:+ "]")
                   x (Some elem) sk generating depth) (fun b =>
        ret (Str.cat (sliceOpen source sink kind
                      ++ [if (0 <? String.length b)%nat
                          then Str.cat ["    for "; sliceIdx depth;
                                        " := range "; source; " {"; Str.nl;
                                        b; "}"; Str.nl]
                          else "";
                          "}"; Str.nl])))) st).
Proof.
  unfold walkSlice, sliceOpen. fold (sliceIdx depth).
  change (Str.dropThroughDot "[i]") with "[i]". cbn [negb app].
  split.
  - intros H. rewrite H. cbn [negb]. unfold bind.
    destruct (getElemType elem x st) as [[kind s1]| |]; reflexivity.
  - intros Hdot ->.
    assert (Hno : Contains {[Str.dropThroughDot (sink +:+ "[i]")]}
                    (sink +:+ "[i]") = false).
    { unfold Contains. apply bool_decide_eq_false.
      rewrite elem_of_singleton. intros Heq.
      assert (Hd : Str.hasDot (sink +:+ "[i]") = true)
        by (rewrite hasDot_append, Hdot; reflexivity).
      unfold Str.dropThroughDot in Heq. rewrite Hd in Heq.
      pose proof (afterFirstDot_shorter _ Hd) as Hlt.
      rewrite <- Heq in Hlt. lia. }
    rewrite Hno. cbn [negb]. reflexivity.
Qed.

Lemma walkSlice_selector_with_root_witness :
  walkSlice (walkType Sample.env (Sample.gen 0) 3) "o.O" "cp.O" "model"
    (Named Sample.tO) {["cp.O[i]"]} [Sample.tUser] 2 false Sample.store0
  = Ok (Str.cat ["if o.O != nil {"; Str.nl;
                 Str.tab; "cp.O = make([]other.O, len(o.O))"; Str.nl;
                 "copy(cp.O, o.O)"; Str.nl;
                 "}"; Str.nl],
        mkStore {["other" := "example.com/other"]} [])
  /\ walkSlice (walkType Sample.env (Sample.gen 0) 3) "o.O" "cp.O" "model"
       (Named Sample.tO) {["O[i]"]} [Sample.tUser] 2 false Sample.store0
     = Ok (Str.cat ["if o.O != nil {"; Str.nl;
                    Str.tab; "cp.O = make([]other.O, len(o.O))"; Str.nl;
                    "copy(cp.O, o.O)"; Str.nl;
                    "    for i2 := range o.O {"; Str.nl;
                    "if o.O[i2].C != nil {"; Str.nl;
                    Str.tab; "cp.O[i2].C = make(chan int, cap(o.O[i2].C))";
                    Str.nl;
                    "}"; Str.nl;
                    "}"; Str.nl;
                    "}"; Str.nl],
           mkStore {["other" := "example.com/other"]} []).
Proof.
  split.
  - rewrite (proj1 (walkSlice_selector_with_root
                      (walkType Sample.env (Sample.gen 0) 3) "o.O" "cp.O"
                      "model" (Named Sample.tO) {["cp.O[i]"]} [Sample.tUser]
                      2 Sample.store0)).
    + vm_compute. reflexivity.
    + vm_compute. reflexivity.
  - rewrite (proj2 (walkSlice_selector_with_root
                      (walkType Sample.env (Sample.gen 0) 3) "o.O" "cp.O"
                      "model" (Named Sample.tO) {["O[i]"]} [Sample.tUser]
                      2 Sample.store0)).
    + vm_compute. reflexivity.
    + reflexivity.
    + reflexivity.
Defined.

(** ** The driver: what a run produces *)

Lemma prefix_common (a b c : string) :
  String.prefix (a +:+ b) (a +:+ c) = String.prefix b c.
Proof.
  induction a as [|d a IH]; [reflexivity|].
  change (String.prefix (String d (a +:+ b)) (String d (a +:+ c))
          = String.prefix b c).
  cbn [String.prefix]. destruct (ascii_dec d d); [exact IH|contradiction].
Qed.

Lemma locateAll_length (ext : Externals) (p : PackageInfo) :
  forall (types : list string) (objs : list object),
    locateAll ext types p = inl objs ->
    Forall2 (fun kind o => locateType kind p = inl o) types objs.
Proof.
  induction types as [|k types IH]; intros objs; cbn [locateAll].
  - intros [= <-]. constructor.
  - destruct (locateType k p) as [o|e] eqn:Hk; [|discriminate].
    destruct (locateAll ext types p) as [os|e]; [|discriminate].
    intros [= <-]. constructor; [exact Hk|now apply IH].
Qed.

Lemma generateFunc_comment (env : TypeEnv) (fuel : nat) (g : Generator)
    (p : PackageInfo) (obj : object) (sk : skips) (generating : list object)
    (st st' : Store) (fn : string) :
  generateFunc env fuel g p obj sk generating st = Ok (fn, st') ->
  Str.hasPrefix fn (funcComment g obj +:+ Str.nl) = true.
Proof.
  unfold generateFunc.
  destruct (match receiverNames g with
            | Some names =>
                match names !! Name obj with
                | Some n => if String.eqb n "" then None else Some n
                | None => None
                end
            | None => None
            end) as [n|]; unfold bind, printf, ret;
    match goal with
    | |- context [walkType ?e ?g ?f ?so ?si ?x ?m ?sk ?gen ?d ?s] =>
        destruct (walkType e g f so si x m sk gen d s) as [[body s2]| |]
    end; try discriminate.
  all: intros [= <- _]; unfold Str.hasPrefix, funcComment; cbn [Str.cat];
    rewrite !append_assoc; change ("" +:+ Str.nl) with Str.nl;
    rewrite !prefix_common; apply prefix_append.
Qed.

Lemma generateAll_functions (env : TypeEnv) (fuel : nat) (p : PackageInfo)
    (objs : list object) :
  forall (todo : list object) (g : Generator) (i : Z) (st : Store)
         (g' : Generator) (st' : Store),
    generateAll env fuel g p i todo objs st = Ok (g', st') ->
    (isPtrRecv g' = isPtrRecv g /\ maxDepth g' = maxDepth g
     /\ methodName g' = methodName g /\ skipLists g' = skipLists g
     /\ receiverNames g' = receiverNames g)
    /\ exists new,
         fns g' = (fns g ++ new)%list
         /\ Forall2 (fun obj fn =>
                       Str.hasPrefix fn (funcComment g obj +:+ Str.nl) = true)
                    todo new.
Proof.
  induction todo as [|obj rest IH]; intros g i st g' st'; cbn [generateAll].
  - intros [= <- <-]. split; [repeat split|].
    exists []. split; [now rewrite app_nil_r|constructor].
  - unfold bind.
    destruct (Get (skipLists g) i) as [sk| |]; try discriminate.
    destruct (generateFunc env fuel g p obj sk objs st) as [[fn s1]| |] eqn:Hfn;
      try discriminate.
    intros H. apply IH in H as [Hcfg [new [Hfns Hall]]]. cbn in Hcfg, Hfns.
    split; [exact Hcfg|].
    exists (fn :: new). split.
    + rewrite Hfns, <- app_assoc. reflexivity.
    + constructor; [exact (generateFunc_comment _ _ _ _ _ _ _ _ _ _ Hfn)|].
      exact Hall.
Qed.

(** X13: a run of [Generate] that returns no error has located every
    requested type, has generated one function for each, in the order of
    the request, each beginning with the comment that names its type, and
    has written once: the text the formatter made of the header, the
    import block and these functions. *)
Theorem Generate_success
    (env : TypeEnv) (ext : Externals) (fuel : nat) (g : Generator)
    (types : list string) (p : PackageInfo) (st st' : Store)
    (written : list string) :
  Generate env ext fuel g types p st = Ok (written, None, st') ->
  exists objs g' new b,
    Forall2 (fun kind o => locateType kind p = inl o) types objs
    /\ fns g' = (fns g ++ new)%list
    /\ Forall2 (fun obj fn =>
                  Str.hasPrefix fn (funcComment g obj +:+ Str.nl) = true)
               objs new
    /\ formatSource ext (fileText ext g' p (imports st')) = inl b
    /\ writeError ext b = None
    /\ written = [b].
Proof.
  unfold Generate. intros H.
  destruct (locateAll ext types p) as [objs|e] eqn:Hobjs; [|discriminate].
  unfold bind at 1 in H.
  destruct (getReceiverNames p) as [[names|e]| |]; try discriminate.
  unfold bind at 1 in H. unfold printf at 1 in H. unfold bind at 1 in H.
  destruct (generateAll _ _ _ _ _ _ _ _) as [[g' s1]| |] eqn:Hall;
    try discriminate.
  unfold bind, generateFile in H.
  destruct (formatSource ext (fileText ext g' p (imports s1))) as [b|diag]
    eqn:Hfmt; [|discriminate].
  destruct (writeError ext b) as [e|] eqn:Hw; [discriminate|].
  unfold ret in H. injection H as <- <-.
  apply generateAll_functions in Hall as [_ [new [Hfns Hnew]]].
  cbn in Hfns. exists objs, g', new, b.
  repeat split; try assumption.
  now apply locateAll_length with (ext := ext).
Qed.

Lemma Generate_success_witness :
  exists written st',
    Generate Sample.env Sample.extConst 6 (Sample.gen 0) ["T"; "User"]
      Sample.pkg Sample.store0 = Ok (written, None, st')
    /\ exists objs g' new b,
         Forall2 (fun kind o => locateType kind Sample.pkg = inl o)
                 ["T"; "User"] objs
         /\ fns g' = (fns (Sample.gen 0) ++ new)%list
         /\ Forall2 (fun obj fn =>
                       Str.hasPrefix fn
                         (funcComment (Sample.gen 0) obj +:+ Str.nl) = true)
                    objs new
         /\ formatSource Sample.extConst
              (fileText Sample.extConst g' Sample.pkg (imports st')) = inl b
         /\ writeError Sample.extConst b = None
         /\ written = [b].
Proof.
  eexists. eexists. split.
  - vm_compute. reflexivity.
  - eapply (Generate_success Sample.env Sample.extConst 6 (Sample.gen 0)
              ["T"; "User"] Sample.pkg Sample.store0).
    vm_compute. reflexivity.
Defined.

Lemma visitDecls_fuelled (ds : list Decl) :
  forall vars : option (gmap string string),
    visitDecls vars ds <> OutOfFuel.
Proof.
  induction ds as [|d ds IH]; intros vars; cbn [visitDecls]; [discriminate|].
  destruct (visitFuncDecl vars d) as [v| |] eqn:Hd;
    [apply IH|discriminate|].
  exfalso. destruct d as [[[|fld fl]|]|]; cbn [visitFuncDecl] in Hd;
    try discriminate.
  destruct (match FieldType fld with StarExpr x => x | e => e end);
    try discriminate.
  destruct (Names fld); discriminate.
Qed.

Lemma visitFiles_fuelled (fs : list File) :
  forall vars : option (gmap string string),
    visitFiles vars fs <> OutOfFuel.
Proof.
  induction fs as [|f fs IH]; intros vars; cbn [visitFiles]; [discriminate|].
  unfold visitFile. destruct (isCodeGenerated f); [apply IH|].
  pose proof (visitDecls_fuelled (Decls f) vars) as Hd.
  destruct (visitDecls vars (Decls f)); [apply IH|discriminate|contradiction].
Qed.

Lemma generateAll_fuelled (env : TypeEnv) (fuel : nat) (p : PackageInfo)
    (objs : list object) (d : Z) :
  0 < d ->
  (Z.to_nat d < fuel)%nat ->
  forall (todo : list object) (g : Generator) (i : Z),
    maxDepth g = d ->
    fuelled (generateAll env fuel g p i todo objs).
Proof.
  intros Hpos Hfuel. induction todo as [|obj rest IH]; intros g i Hg;
    cbn [generateAll]; [apply fuelled_ret|].
  apply fuelled_bind.
  - intros s. destruct (Get (skipLists g) i) as [sk| |] eqn:HG;
      try discriminate.
    exfalso. unfold Get in HG.
    destruct (i <? Z.of_nat (length (skipLists g))); [|discriminate].
    destruct (i <? 0); [discriminate|].
    destruct (skipLists g !! Z.to_nat i); discriminate.
  - intros sk. apply fuelled_bind.
    + apply generateFunc_terminates; rewrite Hg; assumption.
    + intros fn. apply IH. exact Hg.
Qed.

(** X14: with a positive maximum depth and fuel beyond it, a run of
    [Generate] on any package and any list of target types comes to an
    end, by a return or by a panic. *)
Theorem Generate_terminates
    (env : TypeEnv) (ext : Externals) (fuel : nat) (g : Generator)
    (types : list string) (p : PackageInfo) (st : Store) :
  0 < maxDepth g ->
  (Z.to_nat (maxDepth g) < fuel)%nat ->
  Generate env ext fuel g types p st <> OutOfFuel.
Proof.
  intros Hpos Hfuel. unfold Generate.
  destruct (locateAll ext types p) as [objs|e]; [|discriminate].
  revert st. apply fuelled_bind.
  - intros s. unfold getReceiverNames.
    destruct (Syntax p) as [|f fs]; [discriminate|].
    pose proof (visitFiles_fuelled (f :: fs) None) as Hv.
    destruct (visitFiles None (f :: fs)); [discriminate|discriminate|
                                            contradiction].
  - intros [names|e]; [|apply fuelled_ret].
    apply fuelled_bind; [intros s; discriminate|intros _].
    apply fuelled_bind.
    + apply (generateAll_fuelled env fuel p objs (maxDepth g) Hpos Hfuel).
      reflexivity.
    + intros g'. apply fuelled_bind.
      * intros s. unfold generateFile.
        destruct (formatSource ext _); discriminate.
      * intros [written [err|]]; apply fuelled_ret.
Qed.

Lemma Generate_terminates_witness :
  Generate Sample.env Sample.extId 4 (Sample.gen 3) ["Root"; "User"]
    Sample.pkg Sample.store0 <> OutOfFuel.
Proof.
  apply Generate_terminates.
  - vm_compute. reflexivity.
  - vm_compute. lia.
Defined.

(** ** The detector on method sets without repeated names *)

(** X15: on a type no two methods of which have the same name, which is
    what the type checker hands over, and whose methods have no slice,
    array, channel or map for a receiver or a result, the detector finds
    the operation exactly as the specification has it: a member of the
    generating set first, otherwise the first method of the configured
    name with no parameter and one result of the receiver type up to a
    pointer, with the shape of that result. *)
Theorem hasDeepCopy_on_distinct_names
    (env : TypeEnv) (g : Generator) (v : TypeName) (generating : list object) :
  NoDup (map FuncName (methods (env v))) ->
  forallb plainMethod (methods (env v)) = true ->
  hasDeepCopy env g v generating = detectSpec env g v generating.
Proof. apply hasDeepCopy_unique_names. Qed.

Lemma hasDeepCopy_on_distinct_names_witness :
  hasDeepCopy Sample.env (Sample.gen 0) Sample.tE [Sample.tUser]
  = detectSpec Sample.env (Sample.gen 0) Sample.tE [Sample.tUser].
Proof.
  apply hasDeepCopy_on_distinct_names.
  - apply (bool_decide_unpack _). vm_compute. exact I.
  - vm_compute. reflexivity.
Defined.

(** ** The depth cutoff on every sink *)

Lemma splitDot_one (s : string) :
  forall cur, (1 <= length (Str.splitDotAux cur s))%nat.
Proof.
  induction s as [|d s IH]; intros cur; cbn [Str.splitDotAux];
    [cbn; lia|].
  destruct (Ascii.eqb d Str.dot); [cbn [length]; lia|apply IH].
Qed.

Lemma splitDot_two (s : string) :
  Str.hasDot s = true ->
  forall cur, (2 <= length (Str.splitDotAux cur s))%nat.
Proof.
  induction s as [|d s IH]; [discriminate|].
  cbn [Str.hasDot Str.splitDotAux]. intros H cur.
  destruct (Ascii.eqb d Str.dot); cbn [orb] in H.
  - cbn [length]. pose proof (splitDot_one s "") as H1. lia.
  - apply IH, H.
Qed.

(** X16: what a call stopped by the depth cutoff does depends on its
    sink alone. When the sink has a dot, the call writes nothing, leaves
    the import table alone, adds one warning to the log and returns,
    without looking at the type; when the sink has no dot, the call
    panics on the slice of its pieces. *)
Theorem walkType_cutoff_by_sink
    (env : TypeEnv) (g : Generator) (fuel : nat)
    (source sink x : string) (t : type) (sk : skips) (t0 : object)
    (generating : list object) (depth : Z) (st : Store) :
  cutoffApplies g depth = true ->
  (Str.hasDot sink = true ->
   exists msg,
     walkType env g (S fuel) source sink x (Some t) sk (t0 :: generating)
       depth st
     = Ok ("", mkStore (imports st) (events st ++ [Warning msg])))
  /\ (Str.hasDot sink = false ->
      walkType env g (S fuel) source sink x (Some t) sk (t0 :: generating)
        depth st
      = Panic "slice bounds out of range [1:0]").
Proof.
  intros Hcut. cbn [walkType]. split; intros Hdot.
  - apply walkStep_cutoff_with_dot; [exact Hcut|].
    apply splitDot_two, Hdot.
  - now apply walkStep_cutoff_without_dot.
Qed.

Lemma walkType_cutoff_by_sink_witness :
  (Str.hasDot "cp.P.Next" = true ->
   exists msg,
     walkType Sample.env (Sample.gen 3) 1 "o.P.Next" "cp.P.Next" "model"
       (Some (Pointer (Named Sample.tB))) ∅ [Sample.tRoot] 3 Sample.store0
     = Ok ("", mkStore (imports Sample.store0)
                 (events Sample.store0 ++ [Warning msg])))
  /\ (Str.hasDot "cp.P.Next" = false ->
      walkType Sample.env (Sample.gen 3) 1 "o.P.Next" "cp.P.Next" "model"
        (Some (Pointer (Named Sample.tB))) ∅ [Sample.tRoot] 3 Sample.store0
      = Panic "slice bounds out of range [1:0]").
Proof. apply walkType_cutoff_by_sink. reflexivity. Defined.

Lemma hasDot_hasChar (s : string) : Str.hasDot s = hasChar Str.dot s.
Proof.
  induction s as [|d s IH]; [reflexivity|].
  cbn [Str.hasDot hasChar]. now rewrite IH.
Qed.

Lemma hasDot_string_of_uint (d : Decimal.uint) :
  Str.hasDot (NilEmpty.string_of_uint d) = false.
Proof. induction d; cbn; try assumption; reflexivity. Qed.

Lemma hasDot_itoa (z : Z) : Str.hasDot (Str.itoa z) = false.
Proof.
  unfold Str.itoa, NilZero.string_of_int, NilZero.string_of_uint.
  destruct (Z.to_int z) as [d|d].
  - destruct d; try reflexivity; apply (hasDot_string_of_uint (_ d)).
  - change (Str.hasDot match d with
                       | Decimal.Nil => "0"
                       | _ => NilEmpty.string_of_uint d
                       end = false).
    destruct d; try reflexivity; apply (hasDot_string_of_uint (_ d)).
Qed.

Lemma hasDot_mapKey (depth : Z) : Str.hasDot (mapKey depth) = false.
Proof.
  unfold mapKey. destruct (1 <? depth); [|reflexivity].
  rewrite hasDot_append, hasDot_itoa. reflexivity.
Qed.

Lemma hasDot_map_temporary (sink : string) (depth : Z) :
  Str.hasDot (selToIdent sink +:+ "_" +:+ mapKey depth) = false.
Proof.
  rewrite !hasDot_append, hasDot_mapKey, hasDot_hasChar.
  destruct (selToIdent_no_special sink) as [H _]. rewrite H. reflexivity.
Qed.

(** X17: a map met one level above the maximum depth crashes the
    generator. When the walker comes to a map type without a name at a
    depth the cutoff lets pass while it stops the next depth, and the
    selector of the map is not in the skip set, the walk of the key is
    stopped by the cutoff with the temporary of the key for a sink; that
    temporary never has a dot, so the call panics, whatever the key and
    the value types are. *)
Theorem walkType_map_at_limit_panics
    (env : TypeEnv) (g : Generator) (fuel : nat)
    (source sink x : string) (tkey telem : type) (sk : skips) (t0 : object)
    (generating : list object) (depth : Z) (st : Store) :
  cutoffApplies g depth = false ->
  cutoffApplies g (depth + 1) = true ->
  Contains sk (mapSel sink (depth =? 0)) = false ->
  walkType env g (S (S fuel)) source sink x (Some (Map tkey telem)) sk
    (t0 :: generating) depth st
  = Panic "slice bounds out of range [1:0]".
Proof.
  intros Hpass Hstop Hsel.
  change (walkType env g (S (S fuel)))
    with (walkStep env g (walkType env g (S fuel))).
  unfold walkStep at 1. fold (cutoffApplies g depth). rewrite Hpass.
  cbn [asMethoder Underlying walkShape]. unfold bind at 1.
  unfold walkMap, mapSkips. fold (mapKey (depth + 1)) (mapVal (depth + 1)).
  fold (mapSel sink (depth =? 0)). rewrite Hsel. cbn [negb].
  unfold bind at 1. rewrite getElemType_ok.
  unfold bind at 1. rewrite getElemType_ok.
  unfold bind at 1. unfold bind at 1.
  cbn [walkType].
  rewrite walkStep_cutoff_without_dot;
    [reflexivity|exact Hstop|apply hasDot_map_temporary].
Qed.

Lemma walkType_map_at_limit_panics_witness :
  walkType Sample.env (Sample.gen 2) 2 "o.M" "cp.M" "model"
    (Some (Map Sample.str Sample.int)) ∅ [Sample.tT] 1 Sample.store0
  = Panic "slice bounds out of range [1:0]".
Proof.
  apply walkType_map_at_limit_panics; reflexivity.
Defined.

(** ** The maximum depth 1 *)

Lemma cutoff_at_one (g : Generator) :
  maxDepth g = 1 -> cutoffApplies g 1 = true.
Proof. intros H. unfold cutoffApplies. rewrite H. reflexivity. Qed.

Lemma walkType_root_dotless_panics
    (env : TypeEnv) (g : Generator) (fuel : nat)
    (source x : string) (obj : object) (elem : type) (sk : skips)
    (t0 : object) (generating : list object) (st : Store) :
  maxDepth g = 1 ->
  underlying (env obj) = Pointer elem
  \/ (underlying (env obj) = Slice elem /\ Contains sk "[i]" = false) ->
  walkType env g (S (S fuel)) source "cp" x (Some (Named obj)) sk
    (t0 :: generating) 0 st
  = Panic "slice bounds out of range [1:0]".
Proof.
  intros Hmax Hunder.
  change (walkType env g (S (S fuel)))
    with (walkStep env g (walkType env g (S fuel))).
  unfold walkStep at 1. fold (cutoffApplies g 0).
  rewrite cutoff_never_at_root. cbn [asMethoder Z.eqb negb Underlying].
  unfold bind at 1. change (0 + 1) with 1.
  destruct Hunder as [->|[-> Hskip]]; cbn [walkShape].
  - unfold walkPointer. cbn [asMethoder].
    destruct (asMethoder elem); cbn [negb];
      unfold bind at 1; unfold bind at 1; rewrite getElemType_ok;
      unfold bind at 1; cbn [walkType];
      (rewrite walkStep_cutoff_without_dot;
       [reflexivity|now apply cutoff_at_one|reflexivity]).
  - unfold walkSlice. change (Str.dropThroughDot "[i]") with "[i]".
    cbn [negb]. rewrite Hskip. cbn [negb Z.ltb Z.compare].
    unfold bind at 1. rewrite getElemType_ok.
    unfold bind at 1. cbn [walkType].
    rewrite walkStep_cutoff_without_dot;
      [reflexivity|now apply cutoff_at_one|reflexivity].
Qed.

(** X18: with the maximum depth 1 the function of a target type whose
    underlying type is a pointer, or a slice whose elements are not
    skipped, is never produced: the walk of the pointee, or of the
    element, is stopped by the cutoff with a sink that has no dot ([cp],
    [cp[i]]), and the generator panics. *)
Theorem generateFunc_depth_one_panics
    (env : TypeEnv) (g : Generator) (fuel : nat) (p : PackageInfo)
    (obj : object) (elem : type) (sk : skips) (t0 : object)
    (generating : list object) (st : Store) :
  maxDepth g = 1 ->
  underlying (env obj) = Pointer elem
  \/ (underlying (env obj) = Slice elem /\ Contains sk "[i]" = false) ->
  generateFunc env (S (S fuel)) g p obj sk (t0 :: generating) st
  = Panic "slice bounds out of range [1:0]".
Proof.
  intros Hmax Hunder. unfold generateFunc.
  destruct (match receiverNames g with
            | Some names =>
                match names !! Name obj with
                | Some n => if String.eqb n "" then None else Some n
                | None => None
                end
            | None => None
            end) as [n|]; unfold bind, printf, ret;
    now rewrite (walkType_root_dotless_panics env g fuel _ (pName p) obj elem
                   sk t0 generating _ Hmax Hunder).
Qed.

Lemma generateFunc_depth_one_panics_witness :
  generateFunc
    (fun o => if bool_decide (o = Sample.tA)
              then mkNamedDecl (Slice (Pointer Sample.int)) []
              else Sample.env o)
    2 (Sample.gen 1) Sample.pkg Sample.tA ∅ [Sample.tA] Sample.store0
  = Panic "slice bounds out of range [1:0]".
Proof.
  apply (generateFunc_depth_one_panics _ (Sample.gen 1) 0 Sample.pkg
           Sample.tA (Pointer Sample.int) ∅ Sample.tA []).
  - reflexivity.
  - right. split; reflexivity.
Defined.

(** X19: a struct met at the maximum depth is left as the shallow copy
    made it: for every field that is walked the cutoff writes nothing and
    logs one warning, so the struct case writes no code, leaves the import
    table alone, and adds as many warnings as there are fields that are
    neither skipped nor hidden by the export filter. *)
Theorem walkFields_at_limit
    (env : TypeEnv) (g : Generator) (fuel : nat)
    (source sink x : string) (needExported : bool) (fields : list Var)
    (sk : skips) (t0 : object) (generating : list object) (depth : Z)
    (st : Store) :
  cutoffApplies g depth = true ->
  exists warnings,
    walkFields (walkType env g (S fuel)) source sink x needExported fields sk
      (t0 :: generating) depth st
    = Ok ("", mkStore (imports st) (events st ++ warnings))
    /\ Forall (fun e => exists msg, e = Warning msg) warnings
    /\ length warnings
       = length (List.filter
                   (fun v =>
                      match v with
                      | mkVar fname _ fexported =>
                          negb (needExported && negb fexported)
                          && negb (Contains sk
                                     (Str.dropThroughDot
                                        (sink +:+ "." +:+ fname)))
                      end) fields).
Proof.
  intros Hcut. revert st.
  induction fields as [|[fname ftype fexported] rest IH]; intros st.
  - exists []. cbn. rewrite app_nil_r. destruct st. repeat split. constructor.
  - cbn [walkFields List.filter].
    destruct (needExported && negb fexported) eqn:Hexp; cbn [negb andb].
    + destruct (IH st) as [ws [Hrun [Hall Hlen]]]. exists ws.
      unfold bind at 1. cbn [ret]. unfold bind. rewrite Hrun.
      repeat split; assumption.
    + unfold Contains. case_bool_decide as Hsk; cbn [negb].
      * destruct (IH st) as [ws [Hrun [Hall Hlen]]]. exists ws.
        unfold bind at 1. cbn [ret]. unfold bind. rewrite Hrun.
        repeat split; assumption.
      * assert (Hdot : Str.hasDot (sink +:+ "." +:+ fname) = true).
        { rewrite hasDot_append. cbn. apply orb_true_r. }
        cbn [walkType].
        destruct (walkStep_cutoff_with_dot env g (walkType env g fuel)
                    (source +:+ "." +:+ fname) (sink +:+ "." +:+ fname) x
                    ftype sk t0 generating depth st Hcut
                    (splitDot_two _ Hdot "")) as [msg Hmsg].
        destruct (IH (mkStore (imports st) (events st ++ [Warning msg])))
          as [ws [Hrun [Hall Hlen]]].
        exists (Warning msg :: ws). unfold bind at 1.
        change (Str.splitDot (sink +:+ "." +:+ fname))
          with (Str.splitDotAux "" (sink +:+ "." +:+ fname)) in Hmsg.
        rewrite Hmsg. unfold bind. cbn [walkType] in Hrun. rewrite Hrun.
        cbn [imports events length]. rewrite <- app_assoc.
        repeat split; [constructor; [now exists msg|exact Hall]|].
        f_equal. exact Hlen.
Qed.

Lemma walkFields_at_limit_witness :
  exists warnings,
    walkFields (walkType Sample.env (Sample.gen 1) 1) "o" "cp" "model" false
      [mkVar "E" (Named Sample.tE) true; mkVar "C" (Chan SendRecv Sample.int) true]
      {["C"]} [Sample.tUser] 1 Sample.store0
    = Ok ("", mkStore (imports Sample.store0)
                (events Sample.store0 ++ warnings))
    /\ Forall (fun e => exists msg, e = Warning msg) warnings
    /\ length warnings
       = length (List.filter
                   (fun v =>
                      match v with
                      | mkVar fname _ fexported =>
                          negb (false && negb fexported)
                          && negb (Contains {["C"]}
                                     (Str.dropThroughDot
                                        ("cp" +:+ "." +:+ fname)))
                      end)
                   [mkVar "E" (Named Sample.tE) true;
                    mkVar "C" (Chan SendRecv Sample.int) true]).
Proof. apply walkFields_at_limit. reflexivity. Defined.
